(** * jishaku: the root command and the voice commands

    A shallow embedding of [jishaku/features/root_command.py] and
    [jishaku/features/voice.py].  Command handlers are coroutines that read
    and mutate the cog, call into the bot framework and answer through
    [ctx.send]; they are embedded in a state-and-exception monad whose state
    records the mutable objects the handler touches together with a log of
    the calls it makes on external objects. *)

From Stdlib Require Import ZArith List String Ascii Bool Lia.
From Stdlib Require Import DecimalString.
From Stdlib Require Import Floats.
Import ListNotations.

Local Open Scope string_scope.

(** ** Python values *)

Module Py.

(** [str(n)] for an [int]. *)
Definition str_int (n : Z) : string := NilZero.string_of_int (Z.to_int n).

(** [len(xs)], rendered through [str] where the source formats it. *)
Definition len {A : Type} (xs : list A) : Z := Z.of_nat (List.length xs).

(** An optional [int] such as [shard_id]: [str(None)] is [None]. *)
Definition str_opt_int (n : option Z) : string :=
  match n with
  | Some z => str_int z
  | None => "None"
  end.

(** Truth value of an optional [int]: [None] and [0] are false. *)
Definition truthy_opt_int (n : option Z) : bool :=
  match n with
  | Some z => negb (Z.eqb z 0)
  | None => false
  end.

(** [sep.join(parts)]. *)
Fixpoint join (sep : string) (parts : list string) : string :=
  match parts with
  | [] => EmptyString
  | [p] => p
  | p :: rest => p ++ sep ++ join sep rest
  end.

(** Membership of a character in the character set of [strip]. *)
Fixpoint char_in (c : ascii) (chars : string) : bool :=
  match chars with
  | EmptyString => false
  | String d rest => if Ascii.eqb c d then true else char_in c rest
  end.

Fixpoint rev_append (s acc : string) : string :=
  match s with
  | EmptyString => acc
  | String c rest => rev_append rest (String c acc)
  end.

Definition reverse (s : string) : string := rev_append s EmptyString.

(** [s.lstrip(chars)]: drops every leading character that is in [chars]. *)
Fixpoint lstrip (chars s : string) : string :=
  match s with
  | EmptyString => EmptyString
  | String c rest => if char_in c chars then lstrip chars rest else s
  end.

(** [s.rstrip(chars)]: drops every trailing character that is in [chars]. *)
Definition rstrip (chars s : string) : string :=
  reverse (lstrip chars (reverse s)).

(** [s.replace(c, "")] for a one-character pattern [c]. *)
Fixpoint remove_char (c : ascii) (s : string) : string :=
  match s with
  | EmptyString => EmptyString
  | String d rest =>
      if Ascii.eqb c d then remove_char c rest else String d (remove_char c rest)
  end.

(** The line feed and the double quote, by their codes. *)
Definition LF : ascii := "010"%char.
Definition newline : string := String LF EmptyString.
Definition dquote : string := String "034"%char EmptyString.

(** [min(a, b)] and [max(a, b)] on floats as the builtins compute them:
    the first argument is kept unless the second compares strictly
    smaller (resp. greater). *)
Definition min (a b : float) : float := if (b <? a)%float then b else a.
Definition max (a b : float) : float := if (a <? b)%float then b else a.

(** [list.pop()]: the last element and the list without it. *)
Fixpoint pop {A : Type} (xs : list A) : option (A * list A) :=
  match xs with
  | [] => None
  | [x] => Some (x, [])
  | x :: rest =>
      match pop rest with
      | Some (y, rest') => Some (y, x :: rest')
      | None => None
      end
  end.

(** [list.remove(x)]: the list without the first element equal to [x]. *)
Fixpoint remove {A : Type} (eqb : A -> A -> bool) (x : A) (xs : list A)
  : option (list A) :=
  match xs with
  | [] => None
  | y :: rest =>
      if eqb y x then Some rest
      else match remove eqb x rest with
           | Some rest' => Some (y :: rest')
           | None => None
           end
  end.

End Py.

(** ** Effects *)

(** Exceptions the handlers raise or catch. *)
Inductive Exn : Type :=
| BadArgument (msg : string)
| AccessDenied
| IndexError
| ValueError
| AttributeError.

Inductive Outcome (A : Type) : Type :=
| Return (a : A)
| Raise (e : Exn).

Arguments Return {A} a.
Arguments Raise {A} e.

(** A computation over a state [S]: it ends with a value or an exception and
    always leaves a state behind (what was mutated before a [raise] stays
    mutated). *)
Definition Eff (S A : Type) : Type := S -> Outcome A * S.

Definition ret {S A : Type} (a : A) : Eff S A := fun s => (Return a, s).

Definition bind {S A B : Type} (c : Eff S A) (k : A -> Eff S B) : Eff S B :=
  fun s =>
    match c s with
    | (Return a, s') => k a s'
    | (Raise e, s') => (Raise e, s')
    end.

Definition raise {S A : Type} (e : Exn) : Eff S A := fun s => (Raise e, s).

Definition get {S : Type} : Eff S S := fun s => (Return s, s).

Definition modify {S : Type} (f : S -> S) : Eff S unit := fun s => (Return tt, f s).

(** [try: body  except AccessDenied: handler]. *)
Definition try_except_AccessDenied {S A : Type} (body handler : Eff S A) : Eff S A :=
  fun s =>
    match body s with
    | (Raise AccessDenied, s') => handler s'
    | r => r
    end.

Declare Scope eff_scope.
Delimit Scope eff_scope with eff.
Notation "x <- c ;; k" := (bind c (fun x => k))
  (at level 61, c at next level, right associativity) : eff_scope.
Notation "c ;; k" := (bind c (fun _ => k))
  (at level 61, right associativity) : eff_scope.

Local Open Scope eff_scope.

(** [for x in xs: body(x)]. *)
Fixpoint for_each {S A : Type} (xs : list A) (body : A -> Eff S unit) : Eff S unit :=
  match xs with
  | [] => ret tt
  | x :: rest => body x ;; for_each rest body
  end.

(** A message as [ctx.send] returns it; as an object it is always true. *)
Definition Message : Type := string.

(** ** The root command: [jishaku/features/root_command.py] *)

Module RootCommand.

(** The part of an invocation context the handlers format:
    [ctx.command.qualified_name] and [ctx.message.created_at] as
    [strftime('%Y-%m-%d %H:%M:%S')] renders it. *)
Record Context : Type := {
  qualified_name : string;
  created_at : string
}.

(** The cancellation handle of a task: the identity of the [asyncio.Task]. *)
Definition Handle : Type := nat.

(** Modelled from the spec: the task record [CommandTask] is declared in
    [jishaku.features.baseclass], which is not among these two files; it holds a
    stable index, the owning invocation context and the cancellation
    handle, which the handlers read as [task.index], [task.ctx] and
    [task.task]. *)
Record CommandTask : Type := {
  index : Z;
  ctx : Context;
  task : Handle
}.

(** [==] on records: a named tuple compares field by field; contexts and
    handles, which Python compares by identity, are compared by content. *)
Definition Context_eqb (a b : Context) : bool :=
  String.eqb (qualified_name a) (qualified_name b)
  && String.eqb (created_at a) (created_at b).

Definition CommandTask_eqb (a b : CommandTask) : bool :=
  Z.eqb (index a) (index b) && Context_eqb (ctx a) (ctx b)
  && Nat.eqb (task a) (task b).

(** The [index] argument of [jsk cancel], annotated
    [typing.Union[int, str]]. *)
Inductive Index : Type :=
| IInt (i : Z)
| IStr (s : string).

(** [index == lit] for a string literal: an [int] never equals a [str]. *)
Definition index_eq_str (i : Index) (lit : string) : bool :=
  match i with
  | IInt _ => false
  | IStr s => String.eqb s lit
  end.

(** What a handler reads and mutates: [self.tasks], [self.jsk.hidden], and
    the two logs of its calls on external objects, oldest first:
    [task.task.cancel()] and [ctx.send(...)]. *)
Record World : Type := {
  tasks : list CommandTask;
  hidden : bool;
  cancel_calls : list Handle;
  sent : list Message
}.

Definition set_tasks (ts : list CommandTask) (w : World) : World :=
  {| tasks := ts; hidden := hidden w;
     cancel_calls := cancel_calls w; sent := sent w |}.

Definition set_hidden (h : bool) (w : World) : World :=
  {| tasks := tasks w; hidden := h;
     cancel_calls := cancel_calls w; sent := sent w |}.

(** [await ctx.send(content)]. *)
Definition send (content : string) : Eff World Message :=
  fun w =>
    (Return content,
     {| tasks := tasks w; hidden := hidden w;
        cancel_calls := cancel_calls w; sent := sent w ++ [content] |}).

(** [handle.cancel()]: the request is recorded; the handler never waits
    for the task to end. *)
Definition cancel (h : Handle) : Eff World unit :=
  fun w =>
    (Return tt,
     {| tasks := tasks w; hidden := hidden w;
        cancel_calls := cancel_calls w ++ [h]; sent := sent w |}).

(** [self.tasks.pop()]. *)
Definition tasks_pop : Eff World CommandTask :=
  fun w =>
    match Py.pop (tasks w) with
    | Some (t, rest) => (Return t, set_tasks rest w)
    | None => (Raise IndexError, w)
    end.

(** [self.tasks.remove(task)]. *)
Definition tasks_remove (t : CommandTask) : Eff World unit :=
  fun w =>
    match Py.remove CommandTask_eqb t (tasks w) with
    | Some rest => (Return tt, set_tasks rest w)
    | None => (Raise ValueError, w)
    end.

(** [self.tasks.clear()]. *)
Definition tasks_clear : Eff World unit := modify (set_tasks []).

(** [discord.utils.get(self.tasks, index=i)]: the first element whose
    [index] attribute equals [i], or [None]. *)
Definition utils_get (ts : list CommandTask) (i : Z) : option CommandTask :=
  find (fun t => Z.eqb (index t) i) ts.

(** *** [jsk hide] and [jsk show] (lines 134-156) *)

Definition jsk_hide : Eff World (option Message) :=
  self <- get ;;
  if hidden self then
    m <- send "Jishaku is already hidden." ;; ret (Some m)
  else
    modify (set_hidden true) ;;
    send "Jishaku is now hidden." ;;
    ret None.

Definition jsk_show : Eff World (option Message) :=
  self <- get ;;
  if negb (hidden self) then
    m <- send "Jishaku is already visible." ;; ret (Some m)
  else
    modify (set_hidden false) ;;
    send "Jishaku is now visible." ;;
    ret None.

(** *** [jsk cancel] (lines 177-212) *)

Definition no_tasks_message : string := "No tasks to cancel.".

Definition unknown_task_message : string := "Unknown task.".

Definition cancelled_all_message (task_count : Z) : string :=
  "Cancelled " ++ Py.str_int task_count ++ " tasks.".

Definition cancelled_task_message (t : CommandTask) : string :=
  "Cancelled task " ++ Py.str_int (index t) ++ ": `"
    ++ qualified_name (ctx t) ++ "`," ++ " invoked at "
    ++ created_at (ctx t) ++ " UTC".

Definition bad_index_literal : Exn :=
  BadArgument ("Literal for " ++ Py.dquote ++ "index" ++ Py.dquote
                 ++ " not recognized.").

(** Lines 210-212, reached with the task that was taken off the list. *)
Definition cancel_and_report (t : CommandTask) : Eff World (option Message) :=
  cancel (task t) ;;
  m <- send (cancelled_task_message t) ;;
  ret (Some m).

Definition jsk_cancel (idx : Index) : Eff World (option Message) :=
  self <- get ;;
  match tasks self with
  | [] => m <- send no_tasks_message ;; ret (Some m)
  | _ :: _ =>
      if index_eq_str idx "~" then
        let task_count := Py.len (tasks self) in
        for_each (tasks self) (fun t => cancel (task t)) ;;
        tasks_clear ;;
        m <- send (cancelled_all_message task_count) ;;
        ret (Some m)
      else
        match idx with
        | IStr _ => raise bad_index_literal
        | IInt i =>
            if Z.eqb i (-1) then
              t <- tasks_pop ;;
              cancel_and_report t
            else
              match utils_get (tasks self) i with
              | Some t => tasks_remove t ;; cancel_and_report t
              | None => m <- send unknown_task_message ;; ret (Some m)
              end
        end
  end.

(** *** The status brief [jsk] (lines 38-131) *)

(** A call into [psutil] either answers or raises [psutil.AccessDenied]. *)
Inductive Access (A : Type) : Type :=
| Granted (a : A)
| Denied.

Arguments Granted {A} a.
Arguments Denied {A}.

(** [mem.rss], [mem.vms] and [mem.uss] of [proc.memory_full_info()]. *)
Record MemInfo : Type := {
  rss : Z;
  vms : Z;
  uss : Z
}.

(** What a [psutil.Process] answers to the calls [jsk] makes on it:
    entering [proc.oneshot()], [proc.memory_full_info()], [proc.name()],
    the attribute [proc.pid] and [proc.num_threads()]. *)
Record Process : Type := {
  oneshot : Access unit;
  memory_full_info : Access MemInfo;
  name : Access string;
  pid : Z;
  num_threads : Access Z
}.

(** The [psutil] module when the import succeeded: the outcome of
    [psutil.Process()]. *)
Record Psutil : Type := {
  new_Process : Access Process
}.

(** [self.bot] as [jsk] reads it: [len(bot.guilds)], [len(bot.users)],
    whether it is a [discord.AutoShardedClient], the keys of [bot.shards]
    in the order of the dict, [shard_count], [shard_id],
    [_connection.max_messages], the two intents,
    [_connection.guild_subscriptions] and [latency]. *)
Record Bot : Type := {
  len_guilds : Z;
  len_users : Z;
  is_AutoShardedClient : bool;
  shards_keys : list Z;
  shard_count : option Z;
  shard_id : option Z;
  max_messages : option Z;
  intents_presences : bool;
  intents_members : bool;
  guild_subscriptions : bool;
  latency : float
}.

(** Everything else [jsk] reads: the two package versions, [sys.version],
    [sys.platform], [self.load_time], [self.start_time], the [psutil]
    module ([None] when its import failed), the first three components of
    [discord.version_info], and the bot. *)
Record Env : Type := {
  jishaku_version : string;
  discord_py_version : string;
  sys_version : string;
  sys_platform : string;
  load_time : Z;
  start_time : Z;
  psutil : option Psutil;
  version_info : Z * Z * Z;
  bot : Bot
}.

(** [discord.version_info >= (1, 5, 0)], a comparison of tuples. *)
Definition version_ge_1_5_0 (v : Z * Z * Z) : bool :=
  let '(major, minor, micro) := v in
  if Z.eqb major 1 then
    if Z.eqb minor 5 then Z.leb 0 micro else Z.ltb 5 minor
  else Z.ltb 1 major.

Definition access_notice : string :=
  "psutil is installed, but this process does not have high enough access rights "
    ++ "to query process information.".

Definition enabled_or_disabled (b : bool) : string :=
  if b then "enabled" else "disabled".

Section Status.

(** Functions of the libraries the handler formats with:
    [humanize.naturaltime], [humanize.naturalsize], and [str] of the
    float that [round(x, 2)] returns. *)
Variable naturaltime : Z -> string.
Variable naturalsize : Z -> string.
Variable str_round2 : float -> string.

(** The handler's local list [summary] is the state of this part. *)
Definition append (line : string) : Eff (list string) unit :=
  modify (fun summary => (summary ++ [line])%list).

(** A call into [psutil]. *)
Definition call {A : Type} (r : Access A) : Eff (list string) A :=
  match r with
  | Granted a => ret a
  | Denied => raise AccessDenied
  end.

(** Lines 48-54. *)
Definition summary_head (env : Env) : list string :=
  [ Py.remove_char Py.LF
      ("Jishaku v" ++ jishaku_version env ++ ", discord.py `"
         ++ discord_py_version env ++ "`, "
         ++ "`Python " ++ sys_version env ++ "` on `" ++ sys_platform env ++ "`");
    "Module was loaded " ++ naturaltime (load_time env) ++ ", "
      ++ "cog was loaded " ++ naturaltime (start_time env) ++ ".";
    EmptyString ].

Definition memory_line (mem : MemInfo) : string :=
  "Using " ++ naturalsize (rss mem) ++ " physical memory and "
    ++ naturalsize (vms mem) ++ " virtual memory, "
    ++ naturalsize (uss mem) ++ " of which unique to this process.".

Definition pid_line (pid : Z) (name : string) (thread_count : Z) : string :=
  "Running on PID " ++ Py.str_int pid ++ " (`" ++ name ++ "`) with "
    ++ Py.str_int thread_count ++ " thread(s).".

(** Lines 57-85. *)
Definition process_section (ps : option Psutil) : Eff (list string) unit :=
  match ps with
  | None => ret tt
  | Some psutil =>
      try_except_AccessDenied
        (proc <- call (new_Process psutil) ;;
         call (oneshot proc) ;;
         try_except_AccessDenied
           (mem <- call (memory_full_info proc) ;;
            append (memory_line mem))
           (ret tt) ;;
         try_except_AccessDenied
           (name <- call (name proc) ;;
            let pid := pid proc in
            thread_count <- call (num_threads proc) ;;
            append (pid_line pid name thread_count))
           (ret tt) ;;
         append EmptyString)
        (append access_notice ;;
         append EmptyString)
  end.

(** Line 87. *)
Definition cache_summary (b : Bot) : string :=
  Py.str_int (len_guilds b) ++ " guild(s) and "
    ++ Py.str_int (len_users b) ++ " user(s)".

(** Lines 90-108. *)
Definition shard_section (b : Bot) : Eff (list string) unit :=
  if is_AutoShardedClient b then
    if Z.ltb 20 (Py.len (shards_keys b)) then
      append
        ("This bot is automatically sharded ("
           ++ Py.str_int (Py.len (shards_keys b)) ++ " shards of "
           ++ Py.str_opt_int (shard_count b) ++ ")"
           ++ " and can see " ++ cache_summary b ++ ".")
    else
      let shard_ids := Py.join ", " (map Py.str_int (shards_keys b)) in
      append
        ("This bot is automatically sharded (Shards " ++ shard_ids
           ++ " of " ++ Py.str_opt_int (shard_count b) ++ ")"
           ++ " and can see " ++ cache_summary b ++ ".")
  else if Py.truthy_opt_int (shard_count b) then
    append
      ("This bot is manually sharded (Shard " ++ Py.str_opt_int (shard_id b)
         ++ " of " ++ Py.str_opt_int (shard_count b) ++ ")"
         ++ " and can see " ++ cache_summary b ++ ".")
  else
    append ("This bot is not sharded and can see " ++ cache_summary b ++ ".").

(** Lines 111-124. *)
Definition cache_section (env : Env) : Eff (list string) unit :=
  let b := bot env in
  let message_cache :=
    if Py.truthy_opt_int (max_messages b)
    then "Message cache capped at " ++ Py.str_opt_int (max_messages b)
    else "Message cache is disabled" in
  if version_ge_1_5_0 (version_info env) then
    let presence_intent :=
      "presence intent is " ++ enabled_or_disabled (intents_presences b) in
    let members_intent :=
      "members intent is " ++ enabled_or_disabled (intents_members b) in
    append (message_cache ++ ", " ++ presence_intent ++ " and "
              ++ members_intent ++ ".")
  else
    let guild_subs :=
      "guild subscriptions are "
        ++ enabled_or_disabled (guild_subscriptions b) in
    append (message_cache ++ " and " ++ guild_subs ++ ".").

(** Line 129. *)
Definition latency_section (b : Bot) : Eff (list string) unit :=
  append ("Average websocket latency: "
            ++ str_round2 (latency b * 1000)%float ++ "ms").

(** Lines 48-129: the handler up to its last statement, run on the
    initial [summary]. *)
Definition build_summary (env : Env) : Outcome unit * list string :=
  (process_section (psutil env) ;;
   shard_section (bot env) ;;
   cache_section env ;;
   latency_section (bot env)) (summary_head env).

(** The handler: line 131 sends the lines joined by line feeds. *)
Definition jsk (env : Env) : Eff World (option Message) :=
  match build_summary env with
  | (Return _, summary) => send (Py.join Py.newline summary) ;; ret None
  | (Raise e, _) => raise e
  end.

End Status.

End RootCommand.

(** ** The voice commands: [jishaku/features/voice.py] *)

Module VoiceFeature.

(** Audio sources of the framework.  [PCMVolumeTransformer] is the one
    class with a [volume] attribute; [OtherSource] stands for any source
    of another class. *)
Inductive AudioSource : Type :=
| FFmpegPCMAudio (uri : string)
| PCMVolumeTransformer (original : AudioSource) (volume : float)
| OtherSource.

(** [discord.PCMVolumeTransformer(original)]: the volume starts at 1.0. *)
Definition new_PCMVolumeTransformer (original : AudioSource) : AudioSource :=
  PCMVolumeTransformer original 1%float.

(** The voice client of the guild as the handlers observe it: the answers
    of [is_connected()], [is_playing()] and [is_paused()], the attribute
    [source] and [channel.name]. *)
Record VoiceClient : Type := {
  connected : bool;
  playing : bool;
  paused : bool;
  source : option AudioSource;
  channel_name : string
}.

(** The calls a handler makes on the voice client and on the context. *)
Inductive Call : Type :=
| is_connected
| is_playing
| is_paused
| stop
| pause
| resume
| play (src : AudioSource)
| send (content : string).

(** [ctx.guild.voice_client] ([None] when the guild has none) and the
    calls made so far, oldest first.  What the framework does on [stop],
    [pause], [resume] and [play] is its own business: the handlers only
    place the call. *)
Record World : Type := {
  voice_client : option VoiceClient;
  calls : list Call
}.

Definition log (c : Call) : Eff World unit :=
  modify (fun w => {| voice_client := voice_client w; calls := calls w ++ [c] |}).

(** [await ctx.send(content)]. *)
Definition ctx_send (content : string) : Eff World Message :=
  log (send content) ;; ret content.

(** [ctx.guild.voice_client]. *)
Definition guild_voice_client : Eff World (option VoiceClient) :=
  w <- get ;; ret (voice_client w).

(** A method call or attribute read on [ctx.guild.voice_client]; on [None]
    Python raises [AttributeError]. *)
Definition on_voice {A : Type} (k : VoiceClient -> Eff World A) : Eff World A :=
  voice <- guild_voice_client ;;
  match voice with
  | Some v => k v
  | None => raise AttributeError
  end.

Definition voice_is_connected : Eff World bool :=
  on_voice (fun v => log is_connected ;; ret (connected v)).

Definition voice_is_playing : Eff World bool :=
  on_voice (fun v => log is_playing ;; ret (playing v)).

Definition voice_is_paused : Eff World bool :=
  on_voice (fun v => log is_paused ;; ret (paused v)).

(** [source.volume = volume] on the source of the voice client. *)
Definition set_source_volume (volume : float) : Eff World unit :=
  modify (fun w =>
    match voice_client w with
    | Some v =>
        match source v with
        | Some (PCMVolumeTransformer original _) =>
            {| voice_client :=
                 Some {| connected := connected v; playing := playing v;
                         paused := paused v;
                         source := Some (PCMVolumeTransformer original volume);
                         channel_name := channel_name v |};
               calls := calls w |}
        | _ => w
        end
    | None => w
    end).

Definition not_connected_message : string :=
  "Not connected to a voice channel in this guild.".

Definition not_playing_message : string :=
  "The voice client in this guild is not playing anything.".

Definition volume_unsupported_message : string :=
  "This source doesn't support adjusting volume or "
    ++ "the interface to do so is not exposed.".

(** Lines 48-57. *)
Definition connected_check : Eff World (option Message) :=
  voice <- guild_voice_client ;;
  match voice with
  | None => m <- ctx_send not_connected_message ;; ret (Some m)
  | Some _ =>
      c <- voice_is_connected ;;
      if negb c then m <- ctx_send not_connected_message ;; ret (Some m)
      else ret None
  end.

(** Lines 59-72. *)
Definition playing_check : Eff World (option Message) :=
  check <- connected_check ;;
  match check with
  | Some m => ret (Some m)
  | None =>
      p <- voice_is_playing ;;
      if negb p then m <- ctx_send not_playing_message ;; ret (Some m)
      else ret None
  end.

(** Lines 140-152. *)
Definition jsk_vc_stop : Eff World (option Message) :=
  check <- playing_check ;;
  match check with
  | Some _ => ret None
  | None =>
      on_voice (fun voice =>
        log stop ;;
        ctx_send ("Stopped playing audio in " ++ channel_name voice ++ ".") ;;
        ret None)
  end.

(** Lines 154-169. *)
Definition jsk_vc_pause : Eff World (option Message) :=
  check <- playing_check ;;
  match check with
  | Some _ => ret None
  | None =>
      on_voice (fun voice =>
        p <- voice_is_paused ;;
        if p then m <- ctx_send "Audio is already paused." ;; ret (Some m)
        else
          log pause ;;
          ctx_send ("Paused audio in " ++ channel_name voice ++ ".") ;;
          ret None)
  end.

(** Lines 171-186. *)
Definition jsk_vc_resume : Eff World (option Message) :=
  check <- playing_check ;;
  match check with
  | Some _ => ret None
  | None =>
      on_voice (fun voice =>
        p <- voice_is_paused ;;
        if negb p then m <- ctx_send "Audio is not paused." ;; ret (Some m)
        else
          log resume ;;
          ctx_send ("Resumed audio in " ++ channel_name voice ++ ".") ;;
          ret None)
  end.

(** Line 197. *)
Definition clamp_volume (percentage : float) : float :=
  Py.max 0 (Py.min 1 (percentage / 100)).

(** Line 226: [uri.lstrip("<").rstrip(">")]. *)
Definition strip_maskers (uri : string) : string :=
  Py.rstrip ">" (Py.lstrip "<" uri).

Section Commands.

(** The format specification [:.2f] on a float. *)
Variable format_2f : float -> string.

(** Lines 188-207. *)
Definition jsk_vc_volume (percentage : float) : Eff World (option Message) :=
  check <- playing_check ;;
  match check with
  | Some _ => ret None
  | None =>
      let volume := clamp_volume percentage in
      on_voice (fun voice =>
        match source voice with
        | Some (PCMVolumeTransformer _ _) =>
            set_source_volume volume ;;
            ctx_send ("Volume set to " ++ format_2f (volume * 100) ++ "%") ;;
            ret None
        | _ => m <- ctx_send volume_unsupported_message ;; ret (Some m)
        end)
  end.

End Commands.

(** Lines 209-229. *)
Definition jsk_vc_play (uri : string) : Eff World (option Message) :=
  check <- connected_check ;;
  match check with
  | Some _ => ret None
  | None =>
      on_voice (fun voice =>
        p <- voice_is_playing ;;
        (if p then log stop else ret tt) ;;
        let uri := strip_maskers uri in
        log (play (new_PCMVolumeTransformer (FFmpegPCMAudio uri))) ;;
        ctx_send ("Playing in " ++ channel_name voice ++ ".") ;;
        ret None)
  end.

End VoiceFeature.

(** ** The task list: [jsk tasks] (root_command.py, lines 159-175) *)

Module TaskList.

Import RootCommand.

(** How the handler ends: with the message [ctx.send] returned, with the
    interface that [send_to] returns, built over the paginator holding
    [lines], or with the [RuntimeError] that [paginator.add_line] raises on
    a line it refuses. *)
Inductive Result : Type :=
| Replied (m : Message)
| Paged (lines : list string)
| LineRefused (line : string).

(** The line written for one task (lines 171-172). *)
Definition task_line (t : CommandTask) : string :=
  Py.str_int (index t) ++ ": `" ++ qualified_name (ctx t) ++ "`, invoked at "
    ++ created_at (ctx t) ++ " UTC".

Section Paginator.

(** Whether [commands.Paginator(max_size=1985).add_line] takes a line; the
    test belongs to the framework. *)
Variable accepts : string -> bool.

(** The content of the one message the interface sends for a paginator
    holding the given lines. *)
Variable first_page : list string -> string.

(** Modelled from the spec: [PaginatorInterface] is declared in
    [jishaku.paginators], which is not among these two files; it is the
    paginating long-message sender of the command framework.
    [interface.send_to(ctx)] sends one message through [ctx.send], the
    first page, and returns the interface. *)
Definition interface_send_to (lines : list string) : Eff World Result :=
  send (first_page lines) ;; ret (Paged lines).

(** The loop of lines 170-172 over a paginator that holds [paginator]. *)
Fixpoint add_lines (paginator : list string) (ts : list CommandTask)
  : list string + string :=
  match ts with
  | [] => inl paginator
  | t :: rest =>
      if accepts (task_line t)
      then add_lines (paginator ++ [task_line t])%list rest
      else inr (task_line t)
  end.

Definition jsk_tasks : Eff World Result :=
  self <- get ;;
  match tasks self with
  | [] => m <- send "No currently running tasks." ;; ret (Replied m)
  | _ :: _ =>
      match add_lines [] (tasks self) with
      | inl lines => interface_send_to lines
      | inr line => ret (LineRefused line)
      end
  end.

End Paginator.

End TaskList.

(** ** Joining and leaving: the rest of [jishaku/features/voice.py] *)

Module VoiceConnection.

Import VoiceFeature.

(** What [voice_check] reads: [discord.voice_client.has_nacl],
    [discord.opus.is_loaded()], and [discord.opus._load_default]: [None]
    when the module has no such attribute, else what the call returns. *)
Record Libraries : Type := {
  has_nacl : bool;
  opus_is_loaded : bool;
  opus_load_default : option bool
}.

(** The [destination] of [join]: a voice channel, by its name, or a member
    with the channel of [member.voice], if any. *)
Inductive Destination : Type :=
| VoiceChannel (name : string)
| Member (voice_channel : option string).

(** The calls of these handlers: those of the playback handlers, and
    [discord.opus._load_default()], [voice.move_to(channel)],
    [channel.connect(reconnect=True)] and [voice.disconnect()]. *)
Inductive Call : Type :=
| guild_call (c : VoiceFeature.Call)
| load_default
| move_to (channel : string)
| connect (channel : string)
| disconnect.

Record Session : Type := {
  libraries : Libraries;
  voice_client : option VoiceClient;
  calls : list Call
}.

Definition log (c : Call) : Eff Session unit :=
  modify (fun s =>
    {| libraries := libraries s; voice_client := voice_client s;
       calls := (calls s ++ [c])%list |}).

(** A check or a call of the playback handlers, run in the session. *)
Definition lift {A : Type} (c : Eff VoiceFeature.World A) : Eff Session A :=
  fun s =>
    let '(r, g) :=
      c {| VoiceFeature.voice_client := voice_client s;
           VoiceFeature.calls := [] |} in
    (r,
     {| libraries := libraries s;
        voice_client := VoiceFeature.voice_client g;
        calls := (calls s ++ map guild_call (VoiceFeature.calls g))%list |}).

Definition no_nacl_message : string :=
  "Voice cannot be used because PyNaCl is not loaded.".

Definition opus_default_failed_message : string :=
  "Voice cannot be used because libopus is not loaded and attempting to load the default failed.".

Definition no_opus_message : string :=
  "Voice cannot be used because libopus is not loaded.".

(** Lines 30-46. *)
Definition voice_check : Eff Session (option Message) :=
  s <- get ;;
  if negb (has_nacl (libraries s)) then
    m <- lift (ctx_send no_nacl_message) ;; ret (Some m)
  else if negb (opus_is_loaded (libraries s)) then
    match opus_load_default (libraries s) with
    | Some loaded =>
        log load_default ;;
        if negb loaded then
          m <- lift (ctx_send opus_default_failed_message) ;; ret (Some m)
        else ret None
    | None => m <- lift (ctx_send no_opus_message) ;; ret (Some m)
    end
  else ret None.

(** The word of the status line: [is_paused()] is asked first and
    [is_playing()] only when it says no. *)
Definition state_word : Eff VoiceFeature.World string :=
  p <- voice_is_paused ;;
  if p then ret "paused"
  else
    q <- voice_is_playing ;;
    if q then ret "playing" else ret "idle".

(** Lines 74-93. *)
Definition jsk_voice : Eff Session (option Message) :=
  check <- voice_check ;;
  match check with
  | Some _ => ret None
  | None =>
      voice <- lift guild_voice_client ;;
      match voice with
      | None => m <- lift (ctx_send "Not connected.") ;; ret (Some m)
      | Some v =>
          c <- lift voice_is_connected ;;
          if negb c then m <- lift (ctx_send "Not connected.") ;; ret (Some m)
          else
            word <- lift state_word ;;
            lift (ctx_send ("Connected to " ++ channel_name v ++ ", "
                              ++ word ++ ".")) ;;
            ret None
      end
  end.

(** Lines 95-124; [author] is [ctx.author], a member. *)
Definition jsk_vc_join (author_channel : option string)
    (destination : option Destination) : Eff Session (option Message) :=
  check <- voice_check ;;
  match check with
  | Some _ => ret None
  | None =>
      let destination :=
        match destination with
        | Some d => d
        | None => Member author_channel
        end in
      let resolved :=
        match destination with
        | VoiceChannel name => Some name
        | Member (Some name) => Some name
        | Member None => None
        end in
      match resolved with
      | None => m <- lift (ctx_send "Member has no voice channel.") ;; ret (Some m)
      | Some name =>
          voice <- lift guild_voice_client ;;
          match voice with
          | Some _ => log (move_to name)
          | None => log (connect name)
          end ;;
          lift (ctx_send ("Connected to " ++ name ++ ".")) ;;
          ret None
      end
  end.

(** Lines 126-138. *)
Definition jsk_vc_disconnect : Eff Session (option Message) :=
  check <- lift connected_check ;;
  match check with
  | Some _ => ret None
  | None =>
      voice <- lift guild_voice_client ;;
      match voice with
      | Some v =>
          log disconnect ;;
          lift (ctx_send ("Disconnected from " ++ channel_name v ++ ".")) ;;
          ret None
      | None => raise AttributeError
      end
  end.

End VoiceConnection.

(** ** Sample inputs *)

Local Open Scope list_scope.

Module Samples.

Import RootCommand.
Local Open Scope Z_scope.

Definition task_py : CommandTask :=
  {| index := 1;
     ctx := {| qualified_name := "jishaku py";
               created_at := "2021-03-01 10:00:00" |};
     task := 11%nat |}.

Definition task_sh : CommandTask :=
  {| index := 2;
     ctx := {| qualified_name := "jishaku sh";
               created_at := "2021-03-01 10:00:05" |};
     task := 12%nat |}.

(** Two tasks running, nothing cancelled or sent yet. *)
Definition two_tasks : World :=
  {| tasks := [task_py; task_sh]; hidden := false;
     cancel_calls := []; sent := [] |}.

(** No task running. *)
Definition no_tasks : World :=
  {| tasks := []; hidden := false; cancel_calls := []; sent := [] |}.

(** A process that refuses [memory_full_info] and answers the rest. *)
Definition memory_denied : Process :=
  {| oneshot := Granted tt; memory_full_info := Denied;
     name := Granted "python3"%string; pid := 4242;
     num_threads := Granted 8 |}.

(** An automatically sharded bot that runs shards 0, 1 and 2 of 3. *)
Definition three_shards : Bot :=
  {| len_guilds := 12; len_users := 340; is_AutoShardedClient := true;
     shards_keys := [0; 1; 2]; shard_count := Some 3; shard_id := None;
     max_messages := Some 1000; intents_presences := false;
     intents_members := true; guild_subscriptions := true;
     latency := 0.125%float |}.

(** The same bot running shards 0 to 20, twenty-one of them, of 64. *)
Definition many_shards : Bot :=
  {| len_guilds := 12; len_users := 340; is_AutoShardedClient := true;
     shards_keys := map Z.of_nat (seq 0 21); shard_count := Some 64;
     shard_id := None;
     max_messages := Some 1000; intents_presences := false;
     intents_members := true; guild_subscriptions := true;
     latency := 0.125%float |}.

Definition env_of (ps : option Psutil) (b : Bot) : Env :=
  {| jishaku_version := "2.2.0"; discord_py_version := "1.7.3";
     sys_version := "3.9.5"; sys_platform := "linux";
     load_time := 100; start_time := 160;
     psutil := ps; version_info := (1, 7, 3); bot := b |}.

(** Stand-ins for the formatting functions of the libraries. *)
Definition seconds_ago (t : Z) : string :=
  (Py.str_int t ++ " seconds ago")%string.
Definition in_bytes (n : Z) : string := (Py.str_int n ++ " Bytes")%string.
Definition as_text (x : float) : string := "125.0"%string.

(** A voice client that is connected and plays a source with a volume. *)
Definition playing_client : VoiceFeature.VoiceClient :=
  {| VoiceFeature.connected := true; VoiceFeature.playing := true;
     VoiceFeature.paused := false;
     VoiceFeature.source :=
       Some (VoiceFeature.PCMVolumeTransformer
               (VoiceFeature.FFmpegPCMAudio "song.mp3") 1%float);
     VoiceFeature.channel_name := "General" |}.

(** The same client playing a source of another class. *)
Definition raw_client : VoiceFeature.VoiceClient :=
  {| VoiceFeature.connected := true; VoiceFeature.playing := true;
     VoiceFeature.paused := false;
     VoiceFeature.source := Some VoiceFeature.OtherSource;
     VoiceFeature.channel_name := "General" |}.

(** Connected, nothing playing. *)
Definition idle_client : VoiceFeature.VoiceClient :=
  {| VoiceFeature.connected := true; VoiceFeature.playing := false;
     VoiceFeature.paused := false; VoiceFeature.source := None;
     VoiceFeature.channel_name := "General" |}.

(** A voice client left over from a connection that dropped. *)
Definition dropped_client : VoiceFeature.VoiceClient :=
  {| VoiceFeature.connected := false; VoiceFeature.playing := false;
     VoiceFeature.paused := false; VoiceFeature.source := None;
     VoiceFeature.channel_name := "General" |}.

Definition guild_with (v : option VoiceFeature.VoiceClient)
  : VoiceFeature.World :=
  {| VoiceFeature.voice_client := v; VoiceFeature.calls := [] |}.

Definition two_decimals (x : float) : string := "50.00"%string.

(** A bot started by hand as shard 1 of 4. *)
Definition second_shard : Bot :=
  {| len_guilds := 12; len_users := 340; is_AutoShardedClient := false;
     shards_keys := []; shard_count := Some 4; shard_id := Some 1;
     max_messages := None; intents_presences := false;
     intents_members := true; guild_subscriptions := true;
     latency := 0.125%float |}.

(** PyNaCl present, libopus not loaded and not loadable by default. *)
Definition no_opus : VoiceConnection.Libraries :=
  {| VoiceConnection.has_nacl := true;
     VoiceConnection.opus_is_loaded := false;
     VoiceConnection.opus_load_default := None |}.

(** PyNaCl present, libopus loaded on the first request. *)
Definition opus_on_demand : VoiceConnection.Libraries :=
  {| VoiceConnection.has_nacl := true;
     VoiceConnection.opus_is_loaded := false;
     VoiceConnection.opus_load_default := Some true |}.

Definition session_of (lib : VoiceConnection.Libraries)
    (v : option VoiceFeature.VoiceClient) : VoiceConnection.Session :=
  {| VoiceConnection.libraries := lib; VoiceConnection.voice_client := v;
     VoiceConnection.calls := [] |}.

End Samples.

(** ** The task registry behind [jsk cancel] *)

Section Registry.

Import RootCommand.

Lemma for_each_cancel (ts : list CommandTask) (w : World) :
  for_each ts (fun t => cancel (task t)) w
  = (Return tt,
     {| tasks := tasks w; hidden := hidden w;
        cancel_calls := cancel_calls w ++ map task ts; sent := sent w |}).
Proof.
  revert w. induction ts as [|t ts IH]; intros w; simpl.
  - rewrite app_nil_r. destruct w; reflexivity.
  - unfold bind at 1. simpl. rewrite IH. simpl.
    rewrite <- app_assoc. reflexivity.
Qed.

Lemma pop_last {A : Type} (init : list A) (x : A) :
  Py.pop (init ++ [x]) = Some (x, init).
Proof.
  induction init as [|y init IH]; simpl; [reflexivity|].
  rewrite IH. destruct init; reflexivity.
Qed.

Lemma utils_get_absent (ts : list CommandTask) (i : Z) :
  (forall t, In t ts -> index t <> i) -> utils_get ts i = None.
Proof.
  intros H. unfold utils_get.
  destruct (find (fun t => Z.eqb (index t) i) ts) as [t|] eqn:E; [|reflexivity].
  apply find_some in E. destruct E as [Hin Heq].
  apply Z.eqb_eq in Heq. exfalso. exact (H t Hin Heq).
Qed.

Lemma CommandTask_eqb_refl (t : CommandTask) : CommandTask_eqb t t = true.
Proof.
  unfold CommandTask_eqb, Context_eqb.
  rewrite Z.eqb_refl, !String.eqb_refl, Nat.eqb_refl. reflexivity.
Qed.

Lemma CommandTask_eqb_index (a b : CommandTask) :
  CommandTask_eqb a b = true -> index a = index b.
Proof.
  unfold CommandTask_eqb. intros H.
  apply andb_prop in H. destruct H as [H _].
  apply andb_prop in H. destruct H as [H _].
  apply Z.eqb_eq. exact H.
Qed.

(** [remove] after a successful [get] takes out the very element [get]
    found: the first one that carries the index. *)
Lemma remove_found (ts : list CommandTask) (i : Z) (t : CommandTask) :
  utils_get ts i = Some t ->
  exists before after,
    ts = before ++ t :: after
    /\ (forall u, In u before -> index u <> i)
    /\ index t = i
    /\ Py.remove CommandTask_eqb t ts = Some (before ++ after).
Proof.
  unfold utils_get. induction ts as [|u ts IH]; simpl; [discriminate|].
  destruct (Z.eqb (index u) i) eqn:E.
  - intros [= ->]. exists [], ts. simpl.
    rewrite CommandTask_eqb_refl. apply Z.eqb_eq in E.
    repeat split; auto.
  - intros Hf. destruct (IH Hf) as (before & after & -> & Hb & Hi & Hr).
    exists (u :: before), after. simpl.
    apply Z.eqb_neq in E.
    destruct (CommandTask_eqb u t) eqn:Eu.
    + apply CommandTask_eqb_index in Eu. congruence.
    + rewrite Hr. repeat split; auto.
      intros v [<-|Hv]; auto.
Qed.

End Registry.

(** ** [jsk cancel] *)

Section Cancel.

Import RootCommand.

(** The [~] branch, taken whenever the registry is not empty. *)
Lemma cancel_tilde_nonempty (w : World) :
  tasks w <> [] ->
  jsk_cancel (IStr "~") w
  = (Return (Some (cancelled_all_message (Py.len (tasks w)))),
     {| tasks := []; hidden := hidden w;
        cancel_calls := cancel_calls w ++ map task (tasks w);
        sent := sent w ++ [cancelled_all_message (Py.len (tasks w))] |}).
Proof.
  intros Hne. unfold jsk_cancel, bind at 1. simpl.
  destruct (tasks w) as [|t ts] eqn:Ets; [contradiction|].
  simpl index_eq_str. cbv iota.
  unfold bind at 1. rewrite for_each_cancel, Ets. reflexivity.
Qed.

(** The sentence on cancel-all read literally: [N] handles signalled, the
    registry emptied, the count [N] reported, and the count [0] reported
    by a second call. *)
Definition cancel_all_as_stated (w : World) : Prop :=
  let n := Py.len (tasks w) in
  let r1 := jsk_cancel (IStr "~") w in
  let r2 := jsk_cancel (IStr "~") (snd r1) in
  fst r1 = Return (Some (cancelled_all_message n))
  /\ tasks (snd r1) = []
  /\ cancel_calls (snd r1) = cancel_calls w ++ map task (tasks w)
  /\ fst r2 = Return (Some (cancelled_all_message 0)).

(** With two tasks running the first call reports 2; the second call finds
    the registry empty and answers that there is nothing to cancel, not
    a count of 0. *)
Lemma cancel_all_twice_no_count : ~ cancel_all_as_stated Samples.two_tasks.
Proof.
  unfold cancel_all_as_stated. intros (_ & _ & _ & H).
  vm_compute in H. discriminate H.
Qed.

(** C1, amended: on a registry of [N >= 1] records, [jsk cancel ~] signals
    the handle of every record once, in registry order, empties the
    registry and reports [N]; called again at once, it finds the registry
    empty, reports that there are no tasks to cancel, signals nothing and
    leaves the registry empty. *)
Theorem jsk_cancel_all (w : World) :
  tasks w <> [] ->
  let report := cancelled_all_message (Py.len (tasks w)) in
  let w1 :=
    {| tasks := []; hidden := hidden w;
       cancel_calls := cancel_calls w ++ map task (tasks w);
       sent := sent w ++ [report] |} in
  jsk_cancel (IStr "~") w = (Return (Some report), w1)
  /\ jsk_cancel (IStr "~") w1
     = (Return (Some no_tasks_message),
        {| tasks := []; hidden := hidden w;
           cancel_calls := cancel_calls w ++ map task (tasks w);
           sent := (sent w ++ [report]) ++ [no_tasks_message] |}).
Proof.
  intros Hne. split; [|reflexivity].
  apply cancel_tilde_nonempty. exact Hne.
Qed.

Lemma jsk_cancel_all_two_tasks :
  jsk_cancel (IStr "~") Samples.two_tasks
  = (Return (Some "Cancelled 2 tasks."),
     {| tasks := []; hidden := false; cancel_calls := [11; 12];
        sent := ["Cancelled 2 tasks."] |})
  /\ jsk_cancel (IStr "~")
       {| tasks := []; hidden := false; cancel_calls := [11; 12];
          sent := ["Cancelled 2 tasks."] |}
     = (Return (Some "No tasks to cancel."),
        {| tasks := []; hidden := false; cancel_calls := [11; 12];
           sent := ["Cancelled 2 tasks."; "No tasks to cancel."] |}).
Proof.
  apply (jsk_cancel_all Samples.two_tasks). discriminate.
Defined.

(** An index that a live record carries: the first such record is taken
    off the registry and its handle signalled; the others stay in order. *)
Lemma jsk_cancel_present_index (w : World) (i : Z) (t : CommandTask) :
  i <> (-1)%Z ->
  utils_get (tasks w) i = Some t ->
  exists before after,
    tasks w = before ++ t :: after
    /\ (forall u, In u before -> index u <> i)
    /\ jsk_cancel (IInt i) w
       = (Return (Some (cancelled_task_message t)),
          {| tasks := before ++ after; hidden := hidden w;
             cancel_calls := cancel_calls w ++ [task t];
             sent := sent w ++ [cancelled_task_message t] |}).
Proof.
  intros Hi Hget.
  destruct (remove_found (tasks w) i t Hget)
    as (before & after & Hts & Hbefore & _ & Hrm).
  exists before, after. split; [exact Hts|]. split; [exact Hbefore|].
  unfold jsk_cancel, bind at 1. simpl.
  destruct (tasks w) as [|u ts] eqn:Ets; [discriminate Hget|].
  simpl index_eq_str. cbv iota.
  apply Z.eqb_neq in Hi. rewrite Hi, Hget.
  unfold bind at 1, tasks_remove. rewrite Ets, Hrm. reflexivity.
Qed.

(** The sentence on an absent index read literally: in every registry
    state the answer is the not-found message, with the registry and the
    handles untouched. *)
Definition cancel_absent_as_stated (w : World) (i : Z) : Prop :=
  i <> (-1)%Z ->
  (forall t, In t (tasks w) -> index t <> i) ->
  let r := jsk_cancel (IInt i) w in
  fst r = Return (Some unknown_task_message)
  /\ tasks (snd r) = tasks w
  /\ cancel_calls (snd r) = cancel_calls w.

(** On the empty registry the answer to index 5 is the nothing-to-cancel
    message, which is not the not-found message. *)
Lemma cancel_absent_on_empty_registry :
  ~ cancel_absent_as_stated Samples.no_tasks 5.
Proof.
  unfold cancel_absent_as_stated. intros H.
  destruct H as (H & _ & _).
  - discriminate.
  - intros t [].
  - vm_compute in H. discriminate H.
Qed.

(** C2, amended: for every integer index [i] other than -1 that no live
    record carries, [jsk cancel i] leaves the registry as it is and
    signals no handle; on a non-empty registry it answers with the
    not-found message, on the empty registry with the distinct
    nothing-to-cancel message. *)
Theorem jsk_cancel_absent_index (w : World) (i : Z) :
  i <> (-1)%Z ->
  (forall t, In t (tasks w) -> index t <> i) ->
  let answer :=
    match tasks w with
    | [] => no_tasks_message
    | _ :: _ => unknown_task_message
    end in
  jsk_cancel (IInt i) w
  = (Return (Some answer),
     {| tasks := tasks w; hidden := hidden w;
        cancel_calls := cancel_calls w; sent := sent w ++ [answer] |}).
Proof.
  intros Hi Habs. unfold jsk_cancel, bind at 1. simpl.
  pose proof (utils_get_absent (tasks w) i Habs) as Hget.
  destruct (tasks w) as [|t ts] eqn:Ets.
  - unfold bind, send, ret. simpl. rewrite Ets. reflexivity.
  - simpl index_eq_str. cbv iota.
    apply Z.eqb_neq in Hi. rewrite Hi, Hget.
    unfold bind, send, ret. simpl. rewrite Ets. reflexivity.
Qed.

Lemma jsk_cancel_absent_index_two_tasks :
  jsk_cancel (IInt 7) Samples.two_tasks
  = (Return (Some "Unknown task."),
     {| tasks := [Samples.task_py; Samples.task_sh]; hidden := false;
        cancel_calls := []; sent := ["Unknown task."] |}).
Proof.
  apply (jsk_cancel_absent_index Samples.two_tasks 7).
  - discriminate.
  - intros t [<-|[<-|[]]]; discriminate.
Defined.

(** C3: on a non-empty registry, [jsk cancel -1] takes off the record
    inserted last and no other, signals the handle of that record once,
    and keeps the records before it in their order. *)
Theorem jsk_cancel_last (w : World) :
  tasks w <> [] ->
  exists (init : list CommandTask) (last : CommandTask),
    tasks w = init ++ [last]
    /\ jsk_cancel (IInt (-1)) w
       = (Return (Some (cancelled_task_message last)),
          {| tasks := init; hidden := hidden w;
             cancel_calls := cancel_calls w ++ [task last];
             sent := sent w ++ [cancelled_task_message last] |}).
Proof.
  intros Hne.
  destruct (exists_last Hne) as (init & last & Hts).
  exists init, last. split; [exact Hts|].
  unfold jsk_cancel, bind at 1. simpl.
  destruct (tasks w) as [|t ts] eqn:Ets; [contradiction|].
  simpl index_eq_str. cbv iota. simpl Z.eqb. cbv iota.
  unfold bind at 1, tasks_pop. rewrite Ets, Hts, pop_last.
  reflexivity.
Qed.

Lemma jsk_cancel_last_two_tasks :
  exists (init : list CommandTask) (last : CommandTask),
    tasks Samples.two_tasks = init ++ [last]
    /\ jsk_cancel (IInt (-1)) Samples.two_tasks
       = (Return (Some (cancelled_task_message last)),
          {| tasks := init; hidden := false;
             cancel_calls := [] ++ [task last];
             sent := [] ++ [cancelled_task_message last] |}).
Proof.
  apply (jsk_cancel_last Samples.two_tasks). discriminate.
Defined.

(** The sentence on index literals read literally: [~] cancels all, and
    any other string is refused with [BadArgument], in every registry
    state. *)
Definition index_literal_as_stated (w : World) (s : string) : Prop :=
  if String.eqb s "~" then
    fst (jsk_cancel (IStr s) w)
    = Return (Some (cancelled_all_message (Py.len (tasks w))))
  else
    jsk_cancel (IStr s) w = (Raise bad_index_literal, w).

(** On the empty registry the literal [abc] is not refused: the handler
    answers that there is nothing to cancel and raises nothing. *)
Lemma index_literal_on_empty_registry :
  ~ index_literal_as_stated Samples.no_tasks "abc".
Proof.
  unfold index_literal_as_stated. intros H.
  vm_compute in H. discriminate H.
Qed.

(** C8, amended: on a non-empty registry the literal [~] cancels all and
    is never read as a number or refused, and every other string is
    refused with [BadArgument] while the registry, the handles and the
    channel are untouched; on the empty registry the emptiness test comes
    first and every string, [~] included, gets the nothing-to-cancel
    message. *)
Theorem jsk_cancel_literal (w : World) (s : string) :
  (tasks w <> [] ->
   if String.eqb s "~" then
     fst (jsk_cancel (IStr s) w)
     = Return (Some (cancelled_all_message (Py.len (tasks w))))
   else
     jsk_cancel (IStr s) w = (Raise bad_index_literal, w))
  /\ (tasks w = [] ->
      jsk_cancel (IStr s) w
      = (Return (Some no_tasks_message),
         {| tasks := []; hidden := hidden w;
            cancel_calls := cancel_calls w;
            sent := sent w ++ [no_tasks_message] |})).
Proof.
  split.
  - intros Hne. destruct (String.eqb s "~") eqn:Es.
    + apply String.eqb_eq in Es. subst s.
      rewrite (cancel_tilde_nonempty w Hne). reflexivity.
    + unfold jsk_cancel, bind at 1. simpl.
      destruct (tasks w) as [|t ts] eqn:Ets; [contradiction|].
      simpl index_eq_str. rewrite Es. reflexivity.
  - intros Hnil. unfold jsk_cancel, bind at 1. simpl.
    rewrite Hnil. unfold bind, send, ret. simpl.
    rewrite Hnil. reflexivity.
Qed.

Lemma jsk_cancel_literal_samples :
  jsk_cancel (IStr "abc") Samples.two_tasks
  = (Raise bad_index_literal, Samples.two_tasks)
  /\ jsk_cancel (IStr "abc") Samples.no_tasks
     = (Return (Some "No tasks to cancel."),
        {| tasks := []; hidden := false; cancel_calls := [];
           sent := ["No tasks to cancel."] |}).
Proof.
  split.
  - apply (proj1 (jsk_cancel_literal Samples.two_tasks "abc")). discriminate.
  - apply (proj2 (jsk_cancel_literal Samples.no_tasks "abc")). reflexivity.
Defined.

End Cancel.

(** ** [jsk hide] and [jsk show] *)

Section HideShow.

Import RootCommand.

(** C10: [jsk hide] on a hidden command changes nothing and answers that
    it is already hidden, otherwise it sets the flag and answers that it
    is now hidden; [jsk show] does the same towards visible; after any
    [hide] the flag is set and after any [show] it is clear. *)
Theorem hide_show_idempotent (w : World) :
  jsk_hide w
  = (if hidden w
     then (Return (Some "Jishaku is already hidden."%string),
           {| tasks := tasks w; hidden := true;
              cancel_calls := cancel_calls w;
              sent := sent w ++ ["Jishaku is already hidden."%string] |})
     else (Return None,
           {| tasks := tasks w; hidden := true;
              cancel_calls := cancel_calls w;
              sent := sent w ++ ["Jishaku is now hidden."%string] |}))
  /\ jsk_show w
     = (if hidden w
        then (Return None,
              {| tasks := tasks w; hidden := false;
                 cancel_calls := cancel_calls w;
                 sent := sent w ++ ["Jishaku is now visible."%string] |})
        else (Return (Some "Jishaku is already visible."%string),
              {| tasks := tasks w; hidden := false;
                 cancel_calls := cancel_calls w;
                 sent := sent w ++ ["Jishaku is already visible."%string] |}))
  /\ hidden (snd (jsk_hide w)) = true
  /\ hidden (snd (jsk_show w)) = false
  /\ hidden (snd (jsk_hide (snd (jsk_hide w)))) = hidden (snd (jsk_hide w))
  /\ hidden (snd (jsk_show (snd (jsk_show w)))) = hidden (snd (jsk_show w)).
Proof.
  destruct w as [ts h cc st]. destruct h; repeat split; reflexivity.
Qed.

End HideShow.

(** ** The status brief *)

Section StatusBrief.

Import RootCommand.

Variable naturaltime : Z -> string.
Variable naturalsize : Z -> string.
Variable str_round2 : float -> string.

Local Abbreviation build_summary := (build_summary naturaltime naturalsize str_round2).
Local Abbreviation jsk := (jsk naturaltime naturalsize str_round2).
Local Abbreviation summary_head := (summary_head naturaltime).
Local Abbreviation process_section := (process_section naturalsize).
Local Abbreviation latency_section := (latency_section str_round2).

(** A part of the handler that only appends the lines [ls]. *)
Definition appends (c : Eff (list string) unit) (ls : list string) : Prop :=
  forall summary, c summary = (Return tt, summary ++ ls).

Lemma appends_append (line : string) : appends (append line) [line].
Proof. intros summary. reflexivity. Qed.

Lemma appends_ret : appends (ret tt) [].
Proof. intros summary. unfold ret. rewrite app_nil_r. reflexivity. Qed.

Lemma appends_seq (c1 c2 : Eff (list string) unit) (l1 l2 : list string) :
  appends c1 l1 -> appends c2 l2 -> appends (c1 ;; c2) (l1 ++ l2).
Proof.
  intros H1 H2 summary. unfold bind.
  rewrite H1, H2, app_assoc. reflexivity.
Qed.

(** The lines the [psutil] part leaves in the summary, case by case. *)
Definition memory_part (proc : Process) : list string :=
  match memory_full_info proc with
  | Granted mem => [memory_line naturalsize mem]
  | Denied => []
  end.

Definition pid_part (proc : Process) : list string :=
  match name proc, num_threads proc with
  | Granted n, Granted c => [pid_line (pid proc) n c]
  | _, _ => []
  end.

(** The process cannot be opened at all: [psutil.Process()] or entering
    [proc.oneshot()] is denied. *)
Definition process_denied (ps : Psutil) : bool :=
  match new_Process ps with
  | Denied => true
  | Granted proc =>
      match oneshot proc with
      | Denied => true
      | Granted _ => false
      end
  end.

Definition process_lines (ps : option Psutil) : list string :=
  match ps with
  | None => []
  | Some psutil =>
      match new_Process psutil with
      | Denied => [access_notice; EmptyString]
      | Granted proc =>
          match oneshot proc with
          | Denied => [access_notice; EmptyString]
          | Granted _ => memory_part proc ++ pid_part proc ++ [EmptyString]
          end
      end
  end.

Lemma process_section_appends (ps : option Psutil) :
  appends (process_section ps) (process_lines ps).
Proof.
  intros summary. destruct ps as [[new]|]; simpl.
  - unfold process_lines, memory_part, pid_part. simpl.
    destruct new as [[os mem nm pd nt]|]; simpl.
    + destruct os as [[]|], mem as [mem|], nm as [nm|], nt as [nt|];
        unfold try_except_AccessDenied, bind, call, append, modify, ret, raise;
        simpl; rewrite <- ?app_assoc; reflexivity.
    + unfold try_except_AccessDenied, bind, call, append, modify, ret, raise.
      simpl. rewrite <- app_assoc. reflexivity.
  - unfold ret. rewrite app_nil_r. reflexivity.
Qed.

Lemma shard_section_appends (b : Bot) :
  exists line, appends (shard_section b) [line].
Proof.
  unfold shard_section.
  destruct (is_AutoShardedClient b);
    [destruct (Z.ltb 20 (Py.len (shards_keys b)))
    |destruct (Py.truthy_opt_int (shard_count b))];
    eexists; apply appends_append.
Qed.

Lemma cache_section_appends (env : Env) :
  exists line, appends (cache_section env) [line].
Proof.
  unfold cache_section.
  destruct (version_ge_1_5_0 (version_info env));
    eexists; apply appends_append.
Qed.

(** The handler after the [psutil] part: three lines, whatever happened
    before. *)
Lemma tail_appends (env : Env) :
  exists shard cache lat,
    appends (shard_section (bot env) ;; cache_section env ;;
             latency_section (bot env)) [shard; cache; lat]
    /\ appends (shard_section (bot env)) [shard].
Proof.
  destruct (shard_section_appends (bot env)) as [shard Hs].
  destruct (cache_section_appends env) as [cache Hc].
  eexists shard, cache, _. split; [|exact Hs].
  apply (appends_seq _ _ [shard] [cache; _] Hs).
  apply (appends_seq _ _ [cache] [_] Hc).
  apply appends_append.
Qed.

Definition without_psutil (env : Env) : Env :=
  {| jishaku_version := jishaku_version env;
     discord_py_version := discord_py_version env;
     sys_version := sys_version env; sys_platform := sys_platform env;
     load_time := load_time env; start_time := start_time env;
     psutil := None; version_info := version_info env; bot := bot env |}.

Lemma build_summary_lines (env : Env) :
  exists shard cache lat : string,
    build_summary env
    = (Return tt,
       summary_head env ++ process_lines (psutil env) ++ [shard; cache; lat])
    /\ build_summary (without_psutil env)
       = (Return tt, summary_head env ++ [shard; cache; lat])
    /\ appends (shard_section (bot env)) [shard].
Proof.
  destruct (tail_appends env) as (shard & cache & lat & Ht & Hs).
  exists shard, cache, lat. split; [|split; [|exact Hs]].
  - unfold RootCommand.build_summary.
    rewrite (appends_seq _ _ _ _ (process_section_appends (psutil env)) Ht).
    reflexivity.
  - unfold RootCommand.build_summary.
    change (psutil (without_psutil env)) with (@None Psutil).
    rewrite (appends_seq _ _ _ _ (process_section_appends None) Ht).
    reflexivity.
Qed.

Lemma notice_not_memory_line (mem : MemInfo) :
  memory_line naturalsize mem <> access_notice.
Proof. unfold memory_line, access_notice. simpl. discriminate. Qed.

Lemma notice_not_pid_line (p : Z) (n : string) (c : Z) :
  pid_line p n c <> access_notice.
Proof. unfold pid_line, access_notice. simpl. discriminate. Qed.

Lemma notice_count (ps : option Psutil) :
  count_occ string_dec (process_lines ps) access_notice
  = match ps with
    | Some psutil => if process_denied psutil then 1 else 0
    | None => 0
    end.
Proof.
  destruct ps as [[new]|]; [|reflexivity].
  unfold process_lines, process_denied. simpl.
  destruct new as [proc|]; [|reflexivity].
  destruct (oneshot proc) as [[]|]; [|reflexivity].
  unfold memory_part, pid_part.
  rewrite !count_occ_app.
  assert (Hblank : count_occ string_dec [EmptyString] access_notice = 0)
    by reflexivity.
  rewrite Hblank.
  destruct (memory_full_info proc) as [mem|], (name proc) as [n|],
    (num_threads proc) as [c|]; simpl;
    repeat match goal with
    | |- context [string_dec ?a ?b] =>
        destruct (string_dec a b) as [E|_];
        [ exfalso;
          first [ exact (notice_not_memory_line _ E)
                | exact (notice_not_pid_line _ _ _ E) ]
        | ]
    end; reflexivity.
Qed.

(** The sentence on permission failures read literally: when the process
    can be opened and part of its information is denied, the report
    carries the notice about limited access, once. *)
Definition partial_denial_explained (env : Env) : Prop :=
  forall ps proc,
    psutil env = Some ps ->
    new_Process ps = Granted proc ->
    oneshot proc = Granted tt ->
    memory_full_info proc = Denied \/ name proc = Denied
    \/ num_threads proc = Denied ->
    fst (build_summary env) = Return tt
    /\ count_occ string_dec (snd (build_summary env)) access_notice = 1.

(** C5, amended: whatever [psutil] grants or denies, the handler returns
    normally and sends one report, whose lines are the head, the lines of
    the process part and the three closing lines that a run without
    [psutil] ends with.  When the process can be opened, a denied
    [memory_full_info] drops the memory line and a denied [name] or
    [num_threads] drops the PID line, each without any notice; the notice
    about access rights stands in the report, once, exactly when opening
    the process is itself denied, and then replaces both lines. *)
Theorem jsk_survives_access_denied (env : Env) (w : World) :
  exists shard cache lat : string,
    let lines :=
      summary_head env ++ process_lines (psutil env) ++ [shard; cache; lat] in
    build_summary (without_psutil env)
    = (Return tt, summary_head env ++ [shard; cache; lat])
    /\ jsk env w
       = (Return None,
          {| tasks := tasks w; hidden := hidden w;
             cancel_calls := cancel_calls w;
             sent := sent w ++ [Py.join Py.newline lines] |})
    /\ count_occ string_dec (process_lines (psutil env)) access_notice
       = match psutil env with
         | Some ps => if process_denied ps then 1 else 0
         | None => 0
         end.
Proof.
  destruct (build_summary_lines env) as (shard & cache & lat & Hb & Hn & _).
  exists shard, cache, lat. cbv zeta. split; [exact Hn|]. split.
  - unfold RootCommand.jsk. rewrite Hb. reflexivity.
  - apply notice_count.
Qed.

(** The line of the report that tells about shards: the third from the
    end. *)
Definition shard_line_of (lines : list string) : option string :=
  nth_error (rev lines) 2.

(** C7: for an automatically sharded bot that holds more than 20 shards
    the shard line gives the number of shards and no shard id; with at
    most 20 shards it lists the ids, separated by commas. *)
Theorem jsk_shard_line (env : Env) :
  is_AutoShardedClient (bot env) = true ->
  let b := bot env in
  let n := Py.len (shards_keys b) in
  ((20 < n)%Z ->
   shard_line_of (snd (build_summary env))
   = Some ("This bot is automatically sharded ("
             ++ Py.str_int n ++ " shards of "
             ++ Py.str_opt_int (shard_count b) ++ ")"
             ++ " and can see " ++ cache_summary b ++ ".")%string)
  /\ ((n <= 20)%Z ->
      shard_line_of (snd (build_summary env))
      = Some ("This bot is automatically sharded (Shards "
                ++ Py.join ", " (map Py.str_int (shards_keys b))
                ++ " of " ++ Py.str_opt_int (shard_count b) ++ ")"
                ++ " and can see " ++ cache_summary b ++ ".")%string).
Proof.
  intros Hauto. cbv zeta.
  destruct (build_summary_lines env) as (shard & cache & lat & Hb & _ & Hs).
  assert (Hline : shard_line_of (snd (build_summary env)) = Some shard).
  { rewrite Hb. unfold shard_line_of. cbn [snd].
    rewrite !rev_app_distr. reflexivity. }
  rewrite Hline. clear Hline Hb.
  specialize (Hs []). unfold shard_section in Hs.
  rewrite Hauto in Hs.
  split; intros Hn.
  - apply Z.ltb_lt in Hn. rewrite Hn in Hs.
    cbv [append modify] in Hs. injection Hs as <-. reflexivity.
  - apply Z.ltb_ge in Hn. rewrite Hn in Hs.
    cbv [append modify] in Hs. injection Hs as <-. reflexivity.
Qed.

End StatusBrief.

(** With [memory_full_info] denied and all else granted, the memory line is
    missing from the report and no notice is given. *)
Lemma partial_denial_is_silent :
  ~ partial_denial_explained Samples.seconds_ago Samples.in_bytes
      Samples.as_text
      (Samples.env_of
         (Some {| RootCommand.new_Process :=
                    RootCommand.Granted Samples.memory_denied |})
         Samples.three_shards).
Proof.
  intros H.
  destruct (H _ Samples.memory_denied eq_refl eq_refl eq_refl
              (or_introl eq_refl)) as [_ Hcount].
  vm_compute in Hcount. discriminate Hcount.
Qed.

Lemma jsk_shard_line_samples :
  shard_line_of
    (snd (RootCommand.build_summary Samples.seconds_ago Samples.in_bytes
            Samples.as_text (Samples.env_of None Samples.many_shards)))
  = Some "This bot is automatically sharded (21 shards of 64) and can see 12 guild(s) and 340 user(s)."%string
  /\ shard_line_of
       (snd (RootCommand.build_summary Samples.seconds_ago Samples.in_bytes
               Samples.as_text (Samples.env_of None Samples.three_shards)))
     = Some "This bot is automatically sharded (Shards 0, 1, 2 of 3) and can see 12 guild(s) and 340 user(s)."%string.
Proof.
  split.
  - apply (proj1 (jsk_shard_line Samples.seconds_ago Samples.in_bytes
                    Samples.as_text (Samples.env_of None Samples.many_shards)
                    eq_refl)).
    reflexivity.
  - apply (proj2 (jsk_shard_line Samples.seconds_ago Samples.in_bytes
                    Samples.as_text (Samples.env_of None Samples.three_shards)
                    eq_refl)).
    discriminate.
Defined.

(** ** Comparisons of floats *)

Section FloatOrder.

Local Open Scope float_scope.

Lemma SFcompare_antisym (a b : spec_float) :
  SFcompare b a = option_map CompOpp (SFcompare a b).
Proof.
  destruct a as [sa|sa| |sa ma ea], b as [sb|sb| |sb mb eb];
    try destruct sa; try destruct sb; try reflexivity; simpl;
    rewrite (Z.compare_antisym ea eb);
    destruct (Z.compare ea eb); simpl; try reflexivity;
    rewrite (Pos.compare_cont_antisym ma mb Eq); simpl;
    rewrite ?CompOpp_involutive; reflexivity.
Qed.

Lemma SFcompare_refl (a : spec_float) :
  a <> S754_nan -> SFcompare a a = Some Eq.
Proof.
  destruct a as [s|s| |s m e]; intros Hn; try congruence;
    destruct s; simpl; rewrite ?Z.compare_refl, ?Pos.compare_cont_refl;
    reflexivity.
Qed.

Definition SF_zero : spec_float := S754_zero false.
Definition SF_one : spec_float := S754_finite false 4503599627370496 (-52).

Lemma Prim2SF_zero : Prim2SF 0 = SF_zero.
Proof. reflexivity. Qed.

Lemma Prim2SF_one : Prim2SF 1 = SF_one.
Proof. reflexivity. Qed.

(** Below zero is below one. *)
Lemma SFltb_zero_one (a : spec_float) :
  SFltb a SF_zero = true -> SFltb a SF_one = true.
Proof.
  destruct a as [s|s| |s m e]; try destruct s; simpl;
    try discriminate; reflexivity.
Qed.

Lemma ltb_leb (a b : float) : (a <? b) = true -> (a <=? b) = true.
Proof.
  rewrite ltb_spec, leb_spec. unfold SFltb, SFleb.
  destruct (SFcompare (Prim2SF a) (Prim2SF b)) as [[]|];
    try discriminate; reflexivity.
Qed.

Lemma ltb_asym (a b : float) : (a <? b) = true -> (b <? a) = false.
Proof.
  rewrite !ltb_spec. unfold SFltb.
  rewrite (SFcompare_antisym (Prim2SF a) (Prim2SF b)).
  destruct (SFcompare (Prim2SF a) (Prim2SF b)) as [[]|];
    try discriminate; reflexivity.
Qed.

Lemma leb_not_ltb (a b : float) :
  (a <=? b) = true -> (a <? b) = false -> (a =? b) = true.
Proof.
  rewrite ltb_spec, leb_spec, eqb_spec. unfold SFltb, SFleb, SFeqb.
  destruct (SFcompare (Prim2SF a) (Prim2SF b)) as [[]|];
    try discriminate; reflexivity.
Qed.

Lemma eqb_sym (a b : float) : (a =? b) = (b =? a).
Proof.
  rewrite !eqb_spec. unfold SFeqb.
  rewrite (SFcompare_antisym (Prim2SF a) (Prim2SF b)).
  destruct (SFcompare (Prim2SF a) (Prim2SF b)) as [[]|]; reflexivity.
Qed.

(** A float that compares with something is equal to itself. *)
Lemma leb_eqb_self (a b : float) : (a <=? b) = true -> (b =? b) = true.
Proof.
  rewrite leb_spec, eqb_spec. unfold SFleb, SFeqb. intros H.
  rewrite SFcompare_refl; [reflexivity|].
  intros Hn. rewrite Hn in H.
  destruct (Prim2SF a); discriminate H.
Qed.

Lemma ltb_zero_one (a : float) : (a <? 0) = true -> (a <? 1) = true.
Proof.
  rewrite !ltb_spec, Prim2SF_zero, Prim2SF_one. apply SFltb_zero_one.
Qed.

End FloatOrder.

(** ** The voice commands *)

Section Voice.

Import VoiceFeature.

Variable format_2f : float -> string.

Local Abbreviation jsk_vc_volume := (jsk_vc_volume format_2f).

(** The commands guarded by [playing_check]. *)
Inductive StopClass : Type :=
| Stop
| Pause
| Resume
| Volume (percentage : float).

Definition invoke (c : StopClass) : Eff World (option Message) :=
  match c with
  | Stop => jsk_vc_stop
  | Pause => jsk_vc_pause
  | Resume => jsk_vc_resume
  | Volume percentage => jsk_vc_volume percentage
  end.

Definition with_calls (w : World) (new : list Call) : World :=
  {| voice_client := voice_client w; calls := calls w ++ new |}.

Lemma playing_check_no_client (w : World) :
  voice_client w = None ->
  playing_check w
  = (Return (Some not_connected_message),
     with_calls w [send not_connected_message]).
Proof.
  destruct w as [vc cs]. simpl. intros ->. reflexivity.
Qed.

Lemma playing_check_disconnected (w : World) (v : VoiceClient) :
  voice_client w = Some v -> connected v = false ->
  playing_check w
  = (Return (Some not_connected_message),
     with_calls w [is_connected; send not_connected_message]).
Proof.
  destruct w as [vc cs]. simpl. intros -> Hc.
  unfold playing_check, connected_check, voice_is_connected, on_voice,
    guild_voice_client, ctx_send, log, bind, get, ret, modify. simpl.
  rewrite Hc. unfold with_calls. simpl. rewrite <- app_assoc. reflexivity.
Qed.

Lemma playing_check_idle (w : World) (v : VoiceClient) :
  voice_client w = Some v -> connected v = true -> playing v = false ->
  playing_check w
  = (Return (Some not_playing_message),
     with_calls w [is_connected; is_playing; send not_playing_message]).
Proof.
  destruct w as [vc cs]. simpl. intros -> Hc Hp.
  unfold playing_check, connected_check, voice_is_connected,
    voice_is_playing, on_voice, guild_voice_client, ctx_send, log, bind,
    get, ret, modify. simpl.
  rewrite Hc. simpl. rewrite Hp. unfold with_calls. simpl.
  rewrite <- !app_assoc. reflexivity.
Qed.

Lemma playing_check_passes (w : World) (v : VoiceClient) :
  voice_client w = Some v -> connected v = true -> playing v = true ->
  playing_check w = (Return None, with_calls w [is_connected; is_playing]).
Proof.
  destruct w as [vc cs]. simpl. intros -> Hc Hp.
  unfold playing_check, connected_check, voice_is_connected,
    voice_is_playing, on_voice, guild_voice_client, ctx_send, log, bind,
    get, ret, modify. simpl.
  rewrite Hc. simpl. rewrite Hp. unfold with_calls. simpl.
  rewrite <- !app_assoc. reflexivity.
Qed.

(** A command of the class stops as soon as the check has answered. *)
Lemma invoke_refused (c : StopClass) (w w' : World) (m : Message) :
  playing_check w = (Return (Some m), w') ->
  invoke c w = (Return None, w').
Proof.
  intros H. destruct c; simpl;
    unfold jsk_vc_stop, jsk_vc_pause, jsk_vc_resume,
      VoiceFeature.jsk_vc_volume, bind; rewrite H; reflexivity.
Qed.

(** C6: [stop], [pause], [resume] and [volume] without a voice client, or
    with one that is not connected, send the not-connected message and
    never call [is_playing]; connected with nothing playing, they send
    the not-playing message; in each case nothing else is called. *)
Theorem stop_class_guards (c : StopClass) (w : World) :
  (voice_client w = None ->
   invoke c w = (Return None, with_calls w [send not_connected_message]))
  /\ (forall v, voice_client w = Some v -> connected v = false ->
      invoke c w
      = (Return None,
         with_calls w [is_connected; send not_connected_message]))
  /\ (forall v, voice_client w = Some v -> connected v = true ->
      playing v = false ->
      invoke c w
      = (Return None,
         with_calls w [is_connected; is_playing; send not_playing_message])).
Proof.
  split; [|split].
  - intros H. eapply invoke_refused, playing_check_no_client, H.
  - intros v H Hc. eapply invoke_refused, playing_check_disconnected; eauto.
  - intros v H Hc Hp. eapply invoke_refused, playing_check_idle; eauto.
Qed.

End Voice.

Lemma stop_class_guards_samples :
  VoiceFeature.jsk_vc_stop (Samples.guild_with None)
  = (Return None,
     {| VoiceFeature.voice_client := None;
        VoiceFeature.calls :=
          [VoiceFeature.send "Not connected to a voice channel in this guild."] |})
  /\ VoiceFeature.jsk_vc_pause (Samples.guild_with (Some Samples.dropped_client))
     = (Return None,
        {| VoiceFeature.voice_client := Some Samples.dropped_client;
           VoiceFeature.calls :=
             [VoiceFeature.is_connected;
              VoiceFeature.send "Not connected to a voice channel in this guild."] |})
  /\ VoiceFeature.jsk_vc_volume Samples.two_decimals 50
       (Samples.guild_with (Some Samples.idle_client))
     = (Return None,
        {| VoiceFeature.voice_client := Some Samples.idle_client;
           VoiceFeature.calls :=
             [VoiceFeature.is_connected; VoiceFeature.is_playing;
              VoiceFeature.send
                "The voice client in this guild is not playing anything."] |}).
Proof.
  split; [|split].
  - apply (proj1 (stop_class_guards Samples.two_decimals Stop
                    (Samples.guild_with None))).
    reflexivity.
  - apply (proj1 (proj2 (stop_class_guards Samples.two_decimals Pause
                           (Samples.guild_with (Some Samples.dropped_client))))
             Samples.dropped_client); reflexivity.
  - apply (proj2 (proj2 (stop_class_guards Samples.two_decimals (Volume 50)
                           (Samples.guild_with (Some Samples.idle_client))))
             Samples.idle_client); reflexivity.
Defined.

(** ** [jsk voice volume] and [jsk voice play] *)

Section Volume.

Import VoiceFeature.
Local Open Scope float_scope.

Variable format_2f : float -> string.

Local Abbreviation jsk_vc_volume := (jsk_vc_volume format_2f).

Lemma clamp_volume_bounds (p : float) :
  (0 <=? clamp_volume p) = true /\ (clamp_volume p <=? 1) = true.
Proof.
  unfold clamp_volume, Py.max, Py.min.
  destruct (p / 100 <? 1) eqn:Hhi.
  - destruct (0 <? p / 100) eqn:Hlo.
    + split; apply ltb_leb; assumption.
    + split; reflexivity.
  - split; reflexivity.
Qed.

Lemma clamp_volume_below (p : float) :
  (p / 100 <? 0) = true -> clamp_volume p = 0.
Proof.
  intros H. unfold clamp_volume, Py.max, Py.min.
  rewrite (ltb_zero_one _ H), (ltb_asym _ _ H). reflexivity.
Qed.

Lemma clamp_volume_above (p : float) :
  (1 <? p / 100) = true -> clamp_volume p = 1.
Proof.
  intros H. unfold clamp_volume, Py.max, Py.min.
  rewrite (ltb_asym _ _ H). reflexivity.
Qed.

Lemma clamp_volume_inside (p : float) :
  (0 <=? p / 100) = true -> (p / 100 <=? 1) = true ->
  (clamp_volume p =? p / 100) = true.
Proof.
  intros Hlo Hhi. unfold clamp_volume, Py.max, Py.min.
  destruct (p / 100 <? 1) eqn:Hlt.
  - destruct (0 <? p / 100) eqn:Hpos.
    + apply (leb_eqb_self _ _ Hlo).
    + apply (leb_not_ltb _ _ Hlo Hpos).
  - change (0 <? 1) with true. cbv iota.
    rewrite eqb_sym. apply (leb_not_ltb _ _ Hhi Hlt).
Qed.

Definition with_volume (v : VoiceClient) (original : AudioSource)
    (volume : float) : VoiceClient :=
  {| connected := connected v; playing := playing v; paused := paused v;
     source := Some (PCMVolumeTransformer original volume);
     channel_name := channel_name v |}.

Definition has_volume (src : option AudioSource) : bool :=
  match src with
  | Some (PCMVolumeTransformer _ _) => true
  | _ => false
  end.

(** C4: [jsk voice volume p] on a playing source with a volume sets that
    volume to [max(0.0, min(1.0, p / 100))]: a float between 0 and 1,
    equal to 0 when [p / 100] is below 0, to 1 when it is above 1, and to
    [p / 100] when that lies between them; -50, 0, 50, 100 and 150 give
    0, 0, 0.5, 1 and 1.  On a playing source of another class, or with no
    source, the command sends the message about unsupported volume and
    sets nothing. *)
Theorem jsk_vc_volume_clamps (p : float) :
  ((0 <=? clamp_volume p) = true /\ (clamp_volume p <=? 1) = true)
  /\ ((p / 100 <? 0) = true -> clamp_volume p = 0)
  /\ ((1 <? p / 100) = true -> clamp_volume p = 1)
  /\ ((0 <=? p / 100) = true -> (p / 100 <=? 1) = true ->
      (clamp_volume p =? p / 100) = true)
  /\ (clamp_volume (-50) = 0 /\ clamp_volume 0 = 0 /\ clamp_volume 50 = 0.5
      /\ clamp_volume 100 = 1 /\ clamp_volume 150 = 1)
  /\ (forall (w : World) (v : VoiceClient) original old,
        voice_client w = Some v ->
        connected v = true -> playing v = true ->
        source v = Some (PCMVolumeTransformer original old) ->
        jsk_vc_volume p w
        = (Return None,
           {| voice_client := Some (with_volume v original (clamp_volume p));
              calls :=
                calls w
                ++ [is_connected; is_playing;
                    send ("Volume set to "
                            ++ format_2f (clamp_volume p * 100) ++ "%")%string]
           |}))
  /\ (forall (w : World) (v : VoiceClient),
        voice_client w = Some v ->
        connected v = true -> playing v = true ->
        has_volume (source v) = false ->
        jsk_vc_volume p w
        = (Return (Some volume_unsupported_message),
           {| voice_client := Some v;
              calls :=
                calls w
                ++ [is_connected; is_playing;
                    send volume_unsupported_message] |})).
Proof.
  split; [apply clamp_volume_bounds|].
  split; [apply clamp_volume_below|].
  split; [apply clamp_volume_above|].
  split; [apply clamp_volume_inside|].
  split; [repeat split; reflexivity|].
  split.
  - intros w v original old Hv Hc Hp Hs.
    unfold VoiceFeature.jsk_vc_volume, bind at 1.
    rewrite (playing_check_passes w v Hv Hc Hp).
    destruct w as [vc cs]. simpl in Hv. subst vc.
    unfold on_voice, guild_voice_client, set_source_volume, ctx_send, log,
      bind, get, ret, modify, with_calls. cbn [voice_client calls].
    rewrite Hs. cbn [voice_client calls]. rewrite Hs.
    cbn [voice_client calls]. rewrite <- !app_assoc. reflexivity.
  - intros w v Hv Hc Hp Hs.
    unfold VoiceFeature.jsk_vc_volume, bind at 1.
    rewrite (playing_check_passes w v Hv Hc Hp).
    destruct w as [vc cs]. simpl in Hv. subst vc.
    unfold on_voice, guild_voice_client, ctx_send, log,
      bind, get, ret, modify, with_calls. cbn [voice_client calls].
    destruct (source v) as [[uri|original old|]|]; try discriminate Hs;
      cbn [voice_client calls]; rewrite <- !app_assoc; reflexivity.
Qed.

End Volume.

Lemma jsk_vc_volume_samples :
  VoiceFeature.jsk_vc_volume Samples.two_decimals 50
    (Samples.guild_with (Some Samples.playing_client))
  = (Return None,
     {| VoiceFeature.voice_client :=
          Some (with_volume Samples.playing_client
                  (VoiceFeature.FFmpegPCMAudio "song.mp3") 0.5%float);
        VoiceFeature.calls :=
          [VoiceFeature.is_connected; VoiceFeature.is_playing;
           VoiceFeature.send "Volume set to 50.00%"] |})
  /\ VoiceFeature.jsk_vc_volume Samples.two_decimals 50
       (Samples.guild_with (Some Samples.raw_client))
     = (Return (Some VoiceFeature.volume_unsupported_message),
        {| VoiceFeature.voice_client := Some Samples.raw_client;
           VoiceFeature.calls :=
             [VoiceFeature.is_connected; VoiceFeature.is_playing;
              VoiceFeature.send VoiceFeature.volume_unsupported_message] |})
  /\ VoiceFeature.clamp_volume (-250) = 0%float
  /\ VoiceFeature.clamp_volume 250 = 1%float
  /\ (VoiceFeature.clamp_volume 25 =? 25 / 100)%float = true.
Proof.
  pose proof (jsk_vc_volume_clamps Samples.two_decimals) as H.
  split; [|split; [|split; [|split]]].
  - destruct (H 50%float) as (_ & _ & _ & _ & _ & Hset & _).
    apply (Hset (Samples.guild_with (Some Samples.playing_client))
             Samples.playing_client (VoiceFeature.FFmpegPCMAudio "song.mp3")
             1%float); reflexivity.
  - destruct (H 50%float) as (_ & _ & _ & _ & _ & _ & Hraw).
    apply (Hraw (Samples.guild_with (Some Samples.raw_client))
             Samples.raw_client); reflexivity.
  - destruct (H (-250)%float) as (_ & Hlow & _). apply Hlow. reflexivity.
  - destruct (H 250%float) as (_ & _ & Hhigh & _). apply Hhigh. reflexivity.
  - destruct (H 25%float) as (_ & _ & _ & Hin & _). apply Hin; reflexivity.
Defined.

(** ** Link maskers around a URI *)

Section Maskers.

Import VoiceFeature.
Local Open Scope string_scope.

Lemma rev_append_twice (s a b : string) :
  Py.rev_append (Py.rev_append s a) b = Py.rev_append a (s ++ b).
Proof.
  revert a b. induction s as [|c s IH]; intros a b; simpl; [reflexivity|].
  rewrite IH. reflexivity.
Qed.

Lemma rev_append_app (s t acc : string) :
  Py.rev_append (s ++ t) acc = Py.rev_append t (Py.rev_append s acc).
Proof.
  revert acc. induction s as [|c s IH]; intros acc; simpl; [reflexivity|].
  apply IH.
Qed.

Lemma append_empty (s : string) : s ++ EmptyString = s.
Proof. induction s as [|c s IH]; simpl; [reflexivity|]. rewrite IH. reflexivity. Qed.

Lemma reverse_involutive (s : string) : Py.reverse (Py.reverse s) = s.
Proof.
  unfold Py.reverse. rewrite rev_append_twice. simpl. apply append_empty.
Qed.

Definition starts_with (c : ascii) (s : string) : bool :=
  match s with
  | String d _ => Ascii.eqb d c
  | EmptyString => false
  end.

Definition ends_with (c : ascii) (s : string) : bool :=
  starts_with c (Py.reverse s).

Lemma lstrip_keeps (c : ascii) (s : string) :
  starts_with c s = false -> Py.lstrip (String c EmptyString) s = s.
Proof.
  destruct s as [|d s]; simpl; [reflexivity|].
  intros ->. reflexivity.
Qed.

Lemma rstrip_keeps (c : ascii) (s : string) :
  ends_with c s = false -> Py.rstrip (String c EmptyString) s = s.
Proof.
  intros H. unfold Py.rstrip. rewrite (lstrip_keeps c _ H).
  apply reverse_involutive.
Qed.

(** A URI without maskers goes through unchanged. *)
Lemma strip_maskers_bare (uri : string) :
  starts_with "<" uri = false -> ends_with ">" uri = false ->
  strip_maskers uri = uri.
Proof.
  intros Hl Hr. unfold strip_maskers.
  rewrite (lstrip_keeps "<" uri Hl). apply (rstrip_keeps ">" uri Hr).
Qed.

(** The same URI between one pair of maskers comes out bare. *)
Lemma strip_maskers_enclosed (uri : string) :
  starts_with "<" uri = false -> ends_with ">" uri = false ->
  strip_maskers ("<" ++ uri ++ ">") = uri.
Proof.
  intros Hl Hr. unfold strip_maskers.
  change (Py.lstrip "<" ("<" ++ uri ++ ">")) with (Py.lstrip "<" (uri ++ ">")).
  assert (Hkeep : Py.lstrip "<" (uri ++ ">") = uri ++ ">").
  { destruct uri as [|d uri]; [reflexivity|].
    simpl in Hl. simpl. rewrite Hl. reflexivity. }
  rewrite Hkeep. unfold Py.rstrip, Py.reverse at 2.
  rewrite rev_append_app. simpl Py.rev_append at 1.
  change (Py.rev_append uri EmptyString) with (Py.reverse uri).
  simpl Py.lstrip. rewrite (lstrip_keeps ">" _ Hr).
  apply reverse_involutive.
Qed.

End Maskers.

Section Play.

Import VoiceFeature.

(** What [jsk voice play] does once the connection check has passed. *)
Lemma jsk_vc_play_connected (uri : string) (w : World) (v : VoiceClient) :
  voice_client w = Some v -> connected v = true ->
  jsk_vc_play uri w
  = (Return None,
     with_calls w
       ([is_connected; is_playing]
          ++ (if playing v then [stop] else [])
          ++ [play (new_PCMVolumeTransformer
                      (FFmpegPCMAudio (strip_maskers uri)));
              send ("Playing in " ++ channel_name v ++ ".")%string])).
Proof.
  destruct w as [vc cs]. simpl. intros -> Hc.
  unfold jsk_vc_play, connected_check, voice_is_connected,
    voice_is_playing, on_voice, guild_voice_client, ctx_send, log, bind,
    get, ret, modify, with_calls. cbn [voice_client calls].
  rewrite Hc. cbn [negb voice_client calls].
  destruct (playing v); cbn [voice_client calls];
    rewrite <- !app_assoc; reflexivity.
Qed.






End Play.

(** ** Every run of [jsk cancel] *)

Section CancelRuns.

Import RootCommand.

Definition with_sent (w : World) (m : Message) : World :=
  {| tasks := tasks w; hidden := hidden w;
     cancel_calls := cancel_calls w; sent := sent w ++ [m] |}.

(** A run that takes the records [removed] off the registry, leaves
    [remaining], signals the handles of the removed ones and answers [m]. *)
Definition cancelled (w : World) (removed remaining : list CommandTask)
    (m : Message) : Outcome (option Message) * World :=
  (Return (Some m),
   {| tasks := remaining; hidden := hidden w;
      cancel_calls := cancel_calls w ++ map task removed;
      sent := sent w ++ [m] |}).

(** The six ways the handler can go. *)
Inductive CancelRun (w : World)
  : Index -> Outcome (option Message) * World -> Prop :=
| run_empty (idx : Index) :
    tasks w = [] ->
    CancelRun w idx (Return (Some no_tasks_message), with_sent w no_tasks_message)
| run_all :
    tasks w <> [] ->
    CancelRun w (IStr "~")
      (cancelled w (tasks w) [] (cancelled_all_message (Py.len (tasks w))))
| run_literal (s : string) :
    tasks w <> [] -> s <> "~"%string ->
    CancelRun w (IStr s) (Raise bad_index_literal, w)
| run_last (init : list CommandTask) (last : CommandTask) :
    tasks w = init ++ [last] ->
    CancelRun w (IInt (-1))
      (cancelled w [last] init (cancelled_task_message last))
| run_index (i : Z) (before after : list CommandTask) (t : CommandTask) :
    i <> (-1)%Z ->
    tasks w = before ++ t :: after ->
    index t = i ->
    (forall u, In u before -> index u <> i) ->
    CancelRun w (IInt i)
      (cancelled w [t] (before ++ after) (cancelled_task_message t))
| run_unknown (i : Z) :
    i <> (-1)%Z ->
    tasks w <> [] ->
    (forall t, In t (tasks w) -> index t <> i) ->
    CancelRun w (IInt i)
      (Return (Some unknown_task_message), with_sent w unknown_task_message).

Lemma cancel_on_empty (idx : Index) (w : World) :
  tasks w = [] ->
  jsk_cancel idx w
  = (Return (Some no_tasks_message), with_sent w no_tasks_message).
Proof.
  intros Hnil. unfold jsk_cancel, bind at 1. simpl. rewrite Hnil.
  reflexivity.
Qed.

Lemma cancel_literal_nonempty (s : string) (w : World) :
  tasks w <> [] -> s <> "~"%string ->
  jsk_cancel (IStr s) w = (Raise bad_index_literal, w).
Proof.
  intros Hne Hs. unfold jsk_cancel, bind at 1. simpl.
  destruct (tasks w) as [|t ts]; [contradiction|].
  simpl index_eq_str. apply String.eqb_neq in Hs. rewrite Hs. reflexivity.
Qed.

Lemma cancel_last_of (w : World) (init : list CommandTask) (last : CommandTask) :
  tasks w = init ++ [last] ->
  jsk_cancel (IInt (-1)) w
  = cancelled w [last] init (cancelled_task_message last).
Proof.
  intros Hts. unfold jsk_cancel, bind at 1. simpl.
  destruct (tasks w) as [|t ts] eqn:Ets.
  - destruct init; discriminate Hts.
  - simpl index_eq_str. cbv iota. simpl Z.eqb. cbv iota.
    unfold bind at 1, tasks_pop. rewrite Ets, Hts, pop_last. reflexivity.
Qed.

Lemma cancel_unknown_nonempty (i : Z) (w : World) :
  i <> (-1)%Z -> tasks w <> [] -> utils_get (tasks w) i = None ->
  jsk_cancel (IInt i) w
  = (Return (Some unknown_task_message), with_sent w unknown_task_message).
Proof.
  intros Hi Hne Hget. unfold jsk_cancel, bind at 1. simpl.
  destruct (tasks w) as [|t ts] eqn:Ets; [contradiction|].
  simpl index_eq_str. cbv iota.
  apply Z.eqb_neq in Hi. rewrite Hi, Hget.
  unfold bind, send, ret, with_sent. simpl. reflexivity.
Qed.

Lemma jsk_cancel_run (idx : Index) (w : World) :
  CancelRun w idx (jsk_cancel idx w).
Proof.
  destruct (tasks w) as [|t0 ts0] eqn:Ets.
  - rewrite (cancel_on_empty idx w Ets). apply run_empty, Ets.
  - assert (Hne : tasks w <> []) by (rewrite Ets; discriminate).
    clear Ets. destruct idx as [i|s].
    + destruct (Z.eq_dec i (-1)) as [->|Hi].
      * destruct (exists_last Hne) as (init & last & Hts).
        rewrite (cancel_last_of w init last Hts). apply run_last, Hts.
      * destruct (utils_get (tasks w) i) as [t|] eqn:Hget.
        -- destruct (jsk_cancel_present_index w i t Hi Hget)
             as (before & after & Hts & Hb & ->).
           apply find_some in Hget. destruct Hget as [_ Hidx].
           apply Z.eqb_eq in Hidx.
           apply run_index; assumption.
        -- rewrite (cancel_unknown_nonempty i w Hi Hne Hget).
           apply run_unknown; try assumption.
           intros t Hin Heq.
           pose proof (find_none _ _ Hget t Hin) as Hf. simpl in Hf.
           apply Z.eqb_neq in Hf. contradiction.
    + destruct (String.eqb_spec s "~") as [->|Hs].
      * rewrite (cancel_tilde_nonempty w Hne). apply run_all, Hne.
      * rewrite (cancel_literal_nonempty s w Hne Hs).
        apply run_literal; assumption.
Qed.

(** X1: every live record whose index is not -1 can be cancelled by that
    index: the first record carrying the index is taken off, its handle is
    signalled once and it is the one reported; the answer is never the
    not-found message. *)
Theorem cancel_listed_index (w : World) (t : CommandTask) :
  In t (tasks w) -> index t <> (-1)%Z ->
  exists before first after,
    tasks w = before ++ first :: after
    /\ index first = index t
    /\ (forall u, In u before -> index u <> index t)
    /\ jsk_cancel (IInt (index t)) w
       = cancelled w [first] (before ++ after) (cancelled_task_message first).
Proof.
  intros Hin Hi.
  destruct (utils_get (tasks w) (index t)) as [first|] eqn:Hget.
  - destruct (jsk_cancel_present_index w (index t) first Hi Hget)
      as (before & after & Hts & Hb & Hrun).
    apply find_some in Hget. destruct Hget as [_ Hidx].
    apply Z.eqb_eq in Hidx.
    exists before, first, after. repeat split; assumption.
  - pose proof (find_none _ _ Hget t Hin) as Hf. simpl in Hf.
    rewrite Z.eqb_refl in Hf. discriminate Hf.
Qed.

Lemma cancel_listed_index_two_tasks :
  exists before first after,
    tasks Samples.two_tasks = before ++ first :: after
    /\ index first = index Samples.task_sh
    /\ (forall u, In u before -> index u <> index Samples.task_sh)
    /\ jsk_cancel (IInt (index Samples.task_sh)) Samples.two_tasks
       = cancelled Samples.two_tasks [first] (before ++ after)
           (cancelled_task_message first).
Proof.
  apply (cancel_listed_index Samples.two_tasks Samples.task_sh).
  - right. left. reflexivity.
  - discriminate.
Defined.

(** X2: the handler never fails on its own list operations: whatever the
    index and the registry, it either answers with a message or raises
    [BadArgument], and it raises only for a string other than [~] on a
    non-empty registry, leaving everything as it was. *)
Theorem jsk_cancel_answers_or_refuses (idx : Index) (w : World) :
  (exists m, fst (jsk_cancel idx w) = Return (Some m))
  \/ (jsk_cancel idx w = (Raise bad_index_literal, w)
      /\ tasks w <> []
      /\ exists s, idx = IStr s /\ s <> "~"%string).
Proof.
  destruct (jsk_cancel_run idx w); try (left; eexists; reflexivity).
  right. split; [reflexivity|]. split; [assumption|].
  exists s. split; [reflexivity|assumption].
Qed.

(** X3: whatever the index, the records taken off the registry are one
    block of it, the remaining records keep their order, and the handles
    signalled are exactly those of the records taken off, in order: no
    record leaves without its handle being signalled and none is signalled
    that stays. *)
Theorem jsk_cancel_conserves (idx : Index) (w : World) :
  exists before removed after,
    tasks w = before ++ removed ++ after
    /\ tasks (snd (jsk_cancel idx w)) = before ++ after
    /\ cancel_calls (snd (jsk_cancel idx w))
       = cancel_calls w ++ map task removed.
Proof.
  destruct (jsk_cancel_run idx w) as
    [idx Hnil| Hne | s Hne Hs | init last Hts
    | i before after t Hi Hts Hidx Hb | i Hi Hne Habs].
  - exists [], [], []. simpl. rewrite Hnil, app_nil_r. auto.
  - exists [], (tasks w), []. simpl. rewrite !app_nil_r. auto.
  - exists (tasks w), [], []. simpl. rewrite !app_nil_r. auto.
  - exists init, [last], []. simpl. rewrite app_nil_r. auto.
  - exists before, [t], after. simpl. auto.
  - exists (tasks w), [], []. simpl. rewrite !app_nil_r. auto.
Qed.

Lemma NoDup_map_remove_block {A B : Type} (f : A -> B)
    (before removed after : list A) :
  NoDup (map f (before ++ removed ++ after)) ->
  NoDup (map f (before ++ after)).
Proof.
  induction removed as [|x removed IH]; simpl; [auto|].
  intros H. apply IH.
  rewrite map_app in H. simpl in H. apply NoDup_remove_1 in H.
  rewrite map_app. exact H.
Qed.

(** X4: indices that are unique among the live records stay unique after
    any [jsk cancel]. *)
Theorem jsk_cancel_keeps_indices_unique (idx : Index) (w : World) :
  NoDup (map index (tasks w)) ->
  NoDup (map index (tasks (snd (jsk_cancel idx w)))).
Proof.
  intros Hnd.
  destruct (jsk_cancel_run idx w) as
    [idx Hnil| Hne | s Hne Hs | init last Hts
    | i before after t Hi Hts Hidx Hb | i Hi Hne Habs]; simpl.
  - exact Hnd.
  - constructor.
  - exact Hnd.
  - rewrite Hts in Hnd.
    apply (NoDup_map_remove_block index init [last] []) in Hnd.
    rewrite app_nil_r in Hnd. exact Hnd.
  - rewrite Hts in Hnd.
    apply (NoDup_map_remove_block index before [t] after) in Hnd.
    exact Hnd.
  - exact Hnd.
Qed.

Lemma jsk_cancel_keeps_indices_unique_two_tasks :
  NoDup (map index (tasks (snd (jsk_cancel (IInt 1) Samples.two_tasks)))).
Proof.
  apply (jsk_cancel_keeps_indices_unique (IInt 1) Samples.two_tasks).
  simpl. constructor.
  - intros [H|[]]. discriminate H.
  - constructor; [intros []|constructor].
Defined.

End CancelRuns.

(** ** [jsk tasks] *)

Section Listing.

Import RootCommand TaskList.

Variable accepts : string -> bool.
Variable first_page : list string -> string.

Local Abbreviation jsk_tasks := (jsk_tasks accepts first_page).

(** Every line of the records [ts] is taken by the paginator. *)
Definition all_accepted (ts : list CommandTask) : Prop :=
  forall t, In t ts -> accepts (task_line t) = true.

Lemma add_lines_accepted (paginator : list string) (ts : list CommandTask) :
  all_accepted ts ->
  add_lines accepts paginator ts = inl (paginator ++ map task_line ts).
Proof.
  revert paginator. induction ts as [|t ts IH]; intros paginator Hall; simpl.
  - rewrite app_nil_r. reflexivity.
  - rewrite (Hall t (or_introl eq_refl)).
    rewrite IH; [|intros u Hu; apply Hall; right; exact Hu].
    rewrite <- app_assoc. reflexivity.
Qed.

Lemma add_lines_refused (paginator : list string)
    (before after : list CommandTask) (t : CommandTask) :
  all_accepted before -> accepts (task_line t) = false ->
  add_lines accepts paginator (before ++ t :: after) = inr (task_line t).
Proof.
  revert paginator. induction before as [|u before IH];
    intros paginator Hall Hno; simpl.
  - rewrite Hno. reflexivity.
  - rewrite (Hall u (or_introl eq_refl)).
    apply IH; [|exact Hno]. intros v Hv. apply Hall. right. exact Hv.
Qed.

Lemma jsk_tasks_accepted (w : World) :
  all_accepted (tasks w) ->
  jsk_tasks w
  = match tasks w with
    | [] =>
        (Return (Replied "No currently running tasks."),
         with_sent w "No currently running tasks.")
    | _ :: _ =>
        (Return (Paged (map task_line (tasks w))),
         with_sent w (first_page (map task_line (tasks w))))
    end.
Proof.
  intros Hall. unfold TaskList.jsk_tasks, bind at 1. simpl.
  destruct (tasks w) as [|t ts] eqn:Ets.
  - unfold bind, send, ret, with_sent. simpl. rewrite Ets. reflexivity.
  - rewrite (add_lines_accepted [] (t :: ts) Hall).
    unfold interface_send_to, bind, send, ret, with_sent. simpl.
    rewrite Ets. reflexivity.
Qed.

(** X5: [jsk tasks] changes neither the registry nor the handles.  On the
    empty registry it says that no task is running, which is the case in
    which [jsk cancel] says that there is nothing to cancel; otherwise it
    hands the interface one line per record, in registry order, and the
    interface sends one message, its first page, through [ctx.send]; when
    the paginator refuses a line, the handler stops at the first such
    line with nothing sent. *)
Theorem jsk_tasks_mirrors_registry (w : World) :
  (tasks w = [] ->
   forall idx,
     jsk_tasks w
     = (Return (Replied "No currently running tasks."),
        with_sent w "No currently running tasks.")
     /\ jsk_cancel idx w
        = (Return (Some no_tasks_message), with_sent w no_tasks_message))
  /\ (tasks w <> [] -> all_accepted (tasks w) ->
      jsk_tasks w
      = (Return (Paged (map task_line (tasks w))),
         with_sent w (first_page (map task_line (tasks w)))))
  /\ (forall before t after,
        tasks w = before ++ t :: after ->
        all_accepted before -> accepts (task_line t) = false ->
        jsk_tasks w = (Return (LineRefused (task_line t)), w)).
Proof.
  split; [|split].
  - intros Hnil idx. split; [|apply cancel_on_empty, Hnil].
    rewrite jsk_tasks_accepted; rewrite Hnil; [reflexivity|intros t []].
  - intros Hne Hall. rewrite (jsk_tasks_accepted w Hall).
    destruct (tasks w); [contradiction|reflexivity].
  - intros before t after Hts Hall Hno.
    unfold TaskList.jsk_tasks, bind at 1. simpl. rewrite Hts.
    rewrite (add_lines_refused [] before after t Hall Hno).
    destruct before; reflexivity.
Qed.

Lemma unique_key_split {A B : Type} (f : A -> B)
    (b1 b2 a1 a2 : list A) (x y : A) :
  b1 ++ x :: a1 = b2 ++ y :: a2 -> f x = f y ->
  NoDup (map f (b1 ++ x :: a1)) ->
  b1 = b2 /\ x = y /\ a1 = a2.
Proof.
  revert b2. induction b1 as [|u b1 IH]; intros [|v b2]; simpl;
    intros Heq Hf Hnd.
  - injection Heq as -> ->. auto.
  - injection Heq as -> ->. exfalso.
    apply NoDup_cons_iff in Hnd. destruct Hnd as [Hnotin _].
    apply Hnotin. rewrite Hf. apply in_map, in_or_app. right. left.
    reflexivity.
  - injection Heq as -> <-. exfalso.
    apply NoDup_cons_iff in Hnd. destruct Hnd as [Hnotin _].
    apply Hnotin. rewrite <- Hf. apply in_map, in_or_app. right. left.
    reflexivity.
  - injection Heq as -> Heq.
    apply NoDup_cons_iff in Hnd. destruct Hnd as [_ Hnd].
    destruct (IH b2 Heq Hf Hnd) as (-> & -> & ->). auto.
Qed.

(** X6: with unique indices, cancelling the index shown on one line of
    the listing strikes out that line and no other: [jsk tasks] then shows
    the lines before and after it in their order, or says that no task is
    running when it was the only one. *)
Theorem jsk_tasks_after_cancel (w : World)
    (before after : list CommandTask) (t : CommandTask) :
  tasks w = before ++ t :: after ->
  NoDup (map index (tasks w)) ->
  index t <> (-1)%Z ->
  all_accepted (tasks w) ->
  fst (jsk_tasks (snd (jsk_cancel (IInt (index t)) w)))
  = match before ++ after with
    | [] => Return (Replied "No currently running tasks.")
    | _ :: _ => Return (Paged (map task_line (before ++ after)))
    end.
Proof.
  intros Hts Hnd Hi Hall.
  assert (Hin : In t (tasks w)).
  { rewrite Hts. apply in_or_app. right. left. reflexivity. }
  destruct (utils_get (tasks w) (index t)) as [first|] eqn:Hget.
  - destruct (jsk_cancel_present_index w (index t) first Hi Hget)
      as (before' & after' & Hts' & _ & Hrun).
    apply find_some in Hget. destruct Hget as [_ Hidx].
    apply Z.eqb_eq in Hidx.
    assert (Hsame : before' = before /\ first = t /\ after' = after).
    { apply (unique_key_split index).
      - rewrite <- Hts', <- Hts. reflexivity.
      - exact Hidx.
      - rewrite <- Hts'. exact Hnd. }
    destruct Hsame as (-> & -> & ->).
    rewrite Hrun. cbn [snd].
    rewrite jsk_tasks_accepted; cbn [tasks].
    + destruct (before ++ after); reflexivity.
    + intros u Hu. apply Hall. rewrite Hts.
      apply in_app_or in Hu. apply in_or_app.
      destruct Hu as [Hu|Hu]; [left; exact Hu|right; right; exact Hu].
  - pose proof (find_none _ _ Hget t Hin) as Hf. simpl in Hf.
    rewrite Z.eqb_refl in Hf. discriminate Hf.
Qed.

End Listing.

Lemma jsk_tasks_mirrors_registry_samples :
  TaskList.jsk_tasks (fun _ => true) (Py.join Py.newline) Samples.no_tasks
  = (Return (TaskList.Replied "No currently running tasks."),
     with_sent Samples.no_tasks "No currently running tasks.")
  /\ TaskList.jsk_tasks (fun _ => true) (Py.join Py.newline)
       Samples.two_tasks
     = (Return
          (TaskList.Paged
             ["1: `jishaku py`, invoked at 2021-03-01 10:00:00 UTC"%string;
              "2: `jishaku sh`, invoked at 2021-03-01 10:00:05 UTC"%string]),
        with_sent Samples.two_tasks
          (Py.join Py.newline
             ["1: `jishaku py`, invoked at 2021-03-01 10:00:00 UTC"%string;
              "2: `jishaku sh`, invoked at 2021-03-01 10:00:05 UTC"%string]))
  /\ TaskList.jsk_tasks (fun _ => false) (Py.join Py.newline)
       Samples.two_tasks
     = (Return
          (TaskList.LineRefused
             "1: `jishaku py`, invoked at 2021-03-01 10:00:00 UTC"),
        Samples.two_tasks).
Proof.
  split; [|split].
  - apply (proj1 (jsk_tasks_mirrors_registry (fun _ => true)
                    (Py.join Py.newline) Samples.no_tasks)
             eq_refl (RootCommand.IInt 0)).
  - apply (proj1 (proj2 (jsk_tasks_mirrors_registry (fun _ => true)
                           (Py.join Py.newline) Samples.two_tasks))).
    + discriminate.
    + intros t _. reflexivity.
  - apply (proj2 (proj2 (jsk_tasks_mirrors_registry (fun _ => false)
                           (Py.join Py.newline) Samples.two_tasks))
             [] Samples.task_py [Samples.task_sh]).
    + reflexivity.
    + intros t [].
    + reflexivity.
Defined.

Lemma jsk_tasks_after_cancel_two_tasks :
  fst (TaskList.jsk_tasks (fun _ => true) (Py.join Py.newline)
         (snd (RootCommand.jsk_cancel
                 (RootCommand.IInt (RootCommand.index Samples.task_py))
                 Samples.two_tasks)))
  = Return (TaskList.Paged (map TaskList.task_line [Samples.task_sh])).
Proof.
  apply (jsk_tasks_after_cancel (fun _ => true) (Py.join Py.newline)
           Samples.two_tasks
           [] [Samples.task_sh] Samples.task_py).
  - reflexivity.
  - simpl. constructor.
    + intros [H|[]]. discriminate H.
    + constructor; [intros []|constructor].
  - discriminate.
  - intros t _. reflexivity.
Defined.

(** ** More on the status brief *)

Section StatusLines.

Import RootCommand.

Variable naturaltime : Z -> string.
Variable naturalsize : Z -> string.
Variable str_round2 : float -> string.

Local Abbreviation build_summary :=
  (build_summary naturaltime naturalsize str_round2).

Lemma remove_char_clean (c : ascii) (s : string) :
  Py.char_in c (Py.remove_char c s) = false.
Proof.
  induction s as [|e s IH]; simpl; [reflexivity|].
  destruct (Ascii.eqb c e) eqn:Ee; [exact IH|].
  simpl. rewrite Ee. exact IH.
Qed.

(** X7: whatever [sys.version] and the other strings hold, line feeds
    included, the first line of the report holds no line feed: the version
    header stays on one line. *)
Theorem report_header_is_one_line (env : Env) :
  exists header rest,
    snd (build_summary env) = header :: rest
    /\ Py.char_in Py.LF header = false.
Proof.
  destruct (build_summary_lines naturaltime naturalsize str_round2 env)
    as (shard & cache & lat & Hb & _ & _).
  rewrite Hb. cbn [snd]. unfold summary_head. cbn [app].
  eexists. eexists. split; [reflexivity|].
  apply remove_char_clean.
Qed.

(** X8: for a bot that is not an [AutoShardedClient], the shard line says
    that the bot is manually sharded, with its shard id, when
    [shard_count] is a number other than 0, and that it is not sharded
    when [shard_count] is [None] or 0. *)
Theorem jsk_shard_line_without_autoshard (env : Env) :
  is_AutoShardedClient (bot env) = false ->
  (forall n, shard_count (bot env) = Some n -> n <> 0%Z ->
   shard_line_of (snd (build_summary env))
   = Some ("This bot is manually sharded (Shard "
             ++ Py.str_opt_int (shard_id (bot env))
             ++ " of " ++ Py.str_int n ++ ")"
             ++ " and can see " ++ cache_summary (bot env) ++ ".")%string)
  /\ (shard_count (bot env) = None \/ shard_count (bot env) = Some 0%Z ->
      shard_line_of (snd (build_summary env))
      = Some ("This bot is not sharded and can see "
                ++ cache_summary (bot env) ++ ".")%string).
Proof.
  intros Hauto.
  destruct (build_summary_lines naturaltime naturalsize str_round2 env)
    as (shard & cache & lat & Hb & _ & Hs).
  assert (Hline : shard_line_of (snd (build_summary env)) = Some shard).
  { rewrite Hb. unfold shard_line_of. cbn [snd].
    rewrite !rev_app_distr. reflexivity. }
  rewrite Hline. clear Hline Hb.
  specialize (Hs []). unfold shard_section in Hs. rewrite Hauto in Hs.
  split.
  - intros n Hn Hnz. rewrite Hn in Hs. unfold Py.truthy_opt_int in Hs.
    apply Z.eqb_neq in Hnz. rewrite Hnz in Hs. cbn [negb] in Hs.
    cbv [append modify] in Hs. injection Hs as <-. reflexivity.
  - intros [Hn|Hn]; rewrite Hn in Hs; unfold Py.truthy_opt_int in Hs;
      cbn [negb Z.eqb] in Hs;
      cbv [append modify] in Hs; injection Hs as <-; reflexivity.
Qed.

End StatusLines.

Lemma jsk_shard_line_without_autoshard_sample :
  shard_line_of
    (snd (RootCommand.build_summary Samples.seconds_ago Samples.in_bytes
            Samples.as_text (Samples.env_of None Samples.second_shard)))
  = Some "This bot is manually sharded (Shard 1 of 4) and can see 12 guild(s) and 340 user(s)."%string.
Proof.
  apply (proj1 (jsk_shard_line_without_autoshard Samples.seconds_ago
                  Samples.in_bytes Samples.as_text
                  (Samples.env_of None Samples.second_shard) eq_refl)
           4%Z eq_refl).
  discriminate.
Defined.

(** ** The playback controls on a playing client *)

Section Controls.

Import VoiceFeature.

Variable format_2f : float -> string.

(** X9: no command guarded by a check ever fails on a missing voice
    client: [stop], [pause], [resume], [volume] and [play] return normally
    in every state of the guild, so each use of the voice client is
    covered by the check before it. *)
Theorem guarded_commands_return (w : World) :
  (forall c, exists r, fst (invoke format_2f c w) = Return r)
  /\ (forall uri, exists r, fst (jsk_vc_play uri w) = Return r).
Proof.
  destruct w as [[[c p pa src nm]|] cs]; split.
  - intros [| | |percentage]; destruct c, p, pa;
      try (eexists; reflexivity);
      destruct src as [[uri|original old|]|]; eexists; reflexivity.
  - intros uri. destruct c, p; eexists; reflexivity.
  - intros [| | |percentage]; eexists; reflexivity.
  - intros uri. eexists; reflexivity.
Qed.

(** X10: on a connected client that is playing, [stop] places the [stop]
    call; [pause] places the [pause] call unless the client says it is
    paused, and then only answers that audio is already paused; [resume]
    places the [resume] call only when the client says it is paused, and
    otherwise answers that audio is not paused.  Each answers once and
    places no other control call. *)
Theorem controls_on_playing_client (w : World) (v : VoiceClient) :
  voice_client w = Some v -> connected v = true -> playing v = true ->
  jsk_vc_stop w
  = (Return None,
     with_calls w
       [is_connected; is_playing; stop;
        send ("Stopped playing audio in " ++ channel_name v ++ ".")%string])
  /\ jsk_vc_pause w
     = (if paused v
        then (Return (Some "Audio is already paused."%string),
              with_calls w
                [is_connected; is_playing; is_paused;
                 send "Audio is already paused."])
        else (Return None,
              with_calls w
                [is_connected; is_playing; is_paused; pause;
                 send ("Paused audio in " ++ channel_name v ++ ".")%string]))
  /\ jsk_vc_resume w
     = (if paused v
        then (Return None,
              with_calls w
                [is_connected; is_playing; is_paused; resume;
                 send ("Resumed audio in " ++ channel_name v ++ ".")%string])
        else (Return (Some "Audio is not paused."%string),
              with_calls w
                [is_connected; is_playing; is_paused;
                 send "Audio is not paused."])).
Proof.
  intros Hv Hc Hp.
  destruct w as [vc cs]. simpl in Hv. subst vc.
  destruct v as [c p pa src nm]. simpl in Hc, Hp. subst c p.
  destruct pa; repeat split;
    cbv -[app String.append]; rewrite <- !app_assoc; reflexivity.
Qed.

(** X11: [play] never hands a source to a client that is not connected,
    and on a connected client it stops the running source first exactly
    when the client says it is playing; the source is always a
    [PCMVolumeTransformer] at volume 1.0 over an [FFmpegPCMAudio] of the
    stripped URI. *)
Theorem jsk_vc_play_order (uri : string) (w : World) :
  (voice_client w = None ->
   jsk_vc_play uri w
   = (Return None, with_calls w [send not_connected_message]))
  /\ (forall v, voice_client w = Some v -> connected v = false ->
      jsk_vc_play uri w
      = (Return None,
         with_calls w [is_connected; send not_connected_message]))
  /\ (forall v, voice_client w = Some v -> connected v = true ->
      jsk_vc_play uri w
      = (Return None,
         with_calls w
           ([is_connected; is_playing]
              ++ (if playing v then [stop] else [])
              ++ [play (PCMVolumeTransformer
                          (FFmpegPCMAudio (strip_maskers uri)) 1%float);
                  send ("Playing in " ++ channel_name v ++ ".")%string]))).
Proof.
  split; [|split].
  - destruct w as [vc cs]. simpl. intros ->. reflexivity.
  - intros v. destruct w as [vc cs]. simpl. intros -> Hc.
    unfold jsk_vc_play, connected_check, voice_is_connected, on_voice,
      guild_voice_client, ctx_send, log, bind, get, ret, modify, with_calls.
    cbn [voice_client calls]. rewrite Hc. cbn [negb voice_client calls].
    rewrite <- !app_assoc. reflexivity.
  - intros v Hv Hc. apply (jsk_vc_play_connected uri w v Hv Hc).
Qed.

End Controls.

Lemma controls_on_playing_client_sample :
  VoiceFeature.jsk_vc_pause (Samples.guild_with (Some Samples.playing_client))
  = (Return None,
     {| VoiceFeature.voice_client := Some Samples.playing_client;
        VoiceFeature.calls :=
          [VoiceFeature.is_connected; VoiceFeature.is_playing;
           VoiceFeature.is_paused; VoiceFeature.pause;
           VoiceFeature.send "Paused audio in General."] |})
  /\ VoiceFeature.jsk_vc_resume
       (Samples.guild_with (Some Samples.playing_client))
     = (Return (Some "Audio is not paused."%string),
        {| VoiceFeature.voice_client := Some Samples.playing_client;
           VoiceFeature.calls :=
             [VoiceFeature.is_connected; VoiceFeature.is_playing;
              VoiceFeature.is_paused;
              VoiceFeature.send "Audio is not paused."] |}).
Proof.
  destruct (controls_on_playing_client
              (Samples.guild_with (Some Samples.playing_client))
              Samples.playing_client eq_refl eq_refl eq_refl)
    as (_ & Hpause & Hresume).
  split; [exact Hpause | exact Hresume].
Defined.

Lemma jsk_vc_play_order_samples :
  VoiceFeature.jsk_vc_play "<song.ogg>" (Samples.guild_with None)
  = (Return None,
     {| VoiceFeature.voice_client := None;
        VoiceFeature.calls :=
          [VoiceFeature.send "Not connected to a voice channel in this guild."] |})
  /\ VoiceFeature.jsk_vc_play "<song.ogg>"
       (Samples.guild_with (Some Samples.idle_client))
     = (Return None,
        {| VoiceFeature.voice_client := Some Samples.idle_client;
           VoiceFeature.calls :=
             [VoiceFeature.is_connected; VoiceFeature.is_playing;
              VoiceFeature.play
                (VoiceFeature.PCMVolumeTransformer
                   (VoiceFeature.FFmpegPCMAudio "song.ogg") 1%float);
              VoiceFeature.send "Playing in General."] |}).
Proof.
  split.
  - apply (proj1 (jsk_vc_play_order "<song.ogg>" (Samples.guild_with None))).
    reflexivity.
  - apply (proj2 (proj2 (jsk_vc_play_order "<song.ogg>"
                           (Samples.guild_with (Some Samples.idle_client))))
             Samples.idle_client); reflexivity.
Defined.

(** ** What is left of a URI after stripping *)

Section StrippedUri.

Import VoiceFeature.
Local Open Scope string_scope.

Lemma string_app_assoc (a b c : string) : (a ++ b) ++ c = a ++ (b ++ c).
Proof.
  induction a as [|x a IH]; simpl; [reflexivity|]. rewrite IH. reflexivity.
Qed.

Lemma rev_append_acc (s acc : string) :
  Py.rev_append s acc = Py.reverse s ++ acc.
Proof.
  unfold Py.reverse. revert acc.
  induction s as [|c s IH]; intros acc; simpl; [reflexivity|].
  rewrite IH, (IH (String c EmptyString)).
  rewrite string_app_assoc. reflexivity.
Qed.

Lemma reverse_app (s t : string) :
  Py.reverse (s ++ t) = Py.reverse t ++ Py.reverse s.
Proof.
  unfold Py.reverse at 1. rewrite rev_append_app, rev_append_acc.
  reflexivity.
Qed.

Lemma lstrip_clean (c : ascii) (s : string) :
  starts_with c (Py.lstrip (String c EmptyString) s) = false.
Proof.
  induction s as [|d s IH]; simpl; [reflexivity|].
  destruct (Ascii.eqb d c) eqn:E; [exact IH|].
  simpl. exact E.
Qed.

Lemma lstrip_suffix (c : ascii) (s : string) :
  exists dropped, s = dropped ++ Py.lstrip (String c EmptyString) s.
Proof.
  induction s as [|d s [dropped IH]]; simpl.
  - exists EmptyString. reflexivity.
  - destruct (Ascii.eqb d c).
    + exists (String d dropped). simpl. rewrite <- IH. reflexivity.
    + exists EmptyString. reflexivity.
Qed.

Lemma rstrip_clean (c : ascii) (s : string) :
  ends_with c (Py.rstrip (String c EmptyString) s) = false.
Proof.
  unfold ends_with, Py.rstrip. rewrite reverse_involutive.
  apply lstrip_clean.
Qed.

Lemma rstrip_prefix (c : ascii) (s : string) :
  exists dropped, s = Py.rstrip (String c EmptyString) s ++ dropped.
Proof.
  destruct (lstrip_suffix c (Py.reverse s)) as [dropped H].
  exists (Py.reverse dropped). unfold Py.rstrip.
  rewrite <- reverse_app, <- H, reverse_involutive. reflexivity.
Qed.

Lemma rstrip_keeps_start (c d : ascii) (s : string) :
  starts_with d s = false ->
  starts_with d (Py.rstrip (String c EmptyString) s) = false.
Proof.
  intros H. destruct (rstrip_prefix c s) as [dropped Hs].
  destruct (Py.rstrip (String c EmptyString) s) as [|e kept];
    [reflexivity|].
  rewrite Hs in H. exact H.
Qed.

(** X12: a URI that neither starts with [<] nor ends with [>] goes
    through the stripping unchanged, and the same URI written between
    [<] and [>] comes out as that URI. *)
Theorem masked_uri_comes_out_bare (uri : string) :
  starts_with "<" uri = false -> ends_with ">" uri = false ->
  strip_maskers uri = uri /\ strip_maskers ("<" ++ uri ++ ">") = uri.
Proof.
  intros Hl Hr. split.
  - apply strip_maskers_bare; assumption.
  - apply strip_maskers_enclosed; assumption.
Qed.

Lemma masked_uri_comes_out_bare_sample :
  strip_maskers "https://example.org/a b.ogg" = "https://example.org/a b.ogg"
  /\ strip_maskers ("<" ++ "https://example.org/a b.ogg" ++ ">")
     = "https://example.org/a b.ogg".
Proof.
  apply (masked_uri_comes_out_bare "https://example.org/a b.ogg");
    reflexivity.
Defined.

(** X13: whatever the URI, what the stripping returns neither starts with
    [<] nor ends with [>], however many of them the URI carried, and
    stripping it again changes nothing. *)
Theorem strip_maskers_idempotent (uri : string) :
  starts_with "<" (strip_maskers uri) = false
  /\ ends_with ">" (strip_maskers uri) = false
  /\ strip_maskers (strip_maskers uri) = strip_maskers uri.
Proof.
  assert (Hl : starts_with "<" (strip_maskers uri) = false).
  { unfold strip_maskers. apply rstrip_keeps_start, lstrip_clean. }
  assert (Hr : ends_with ">" (strip_maskers uri) = false).
  { unfold strip_maskers. apply rstrip_clean. }
  split; [exact Hl|]. split; [exact Hr|].
  apply strip_maskers_bare; assumption.
Qed.

End StrippedUri.

(** ** Joining, leaving and the voice status *)

Section Connection.

Import VoiceFeature VoiceConnection.

Definition session_with (s : Session) (new : list VoiceConnection.Call)
  : Session :=
  {| libraries := libraries s; voice_client := VoiceConnection.voice_client s;
     calls := VoiceConnection.calls s ++ new |}.

(** The libraries allow voice: PyNaCl is there, and libopus is loaded or
    its default can be loaded. *)
Definition usable (lib : Libraries) : bool :=
  has_nacl lib
  && (opus_is_loaded lib
      || match opus_load_default lib with
         | Some loaded => loaded
         | None => false
         end).

(** The calls of [voice_check] when it lets the handler go on. *)
Definition load_calls (lib : Libraries) : list VoiceConnection.Call :=
  if opus_is_loaded lib then [] else [load_default].

Lemma voice_check_passes (s : Session) :
  usable (libraries s) = true ->
  voice_check s = (Return None, session_with s (load_calls (libraries s))).
Proof.
  destruct s as [[nacl loaded [[|]|]] vc cs]; destruct nacl, loaded;
    try discriminate; intros _;
    cbv -[app]; rewrite ?app_nil_r; reflexivity.
Qed.

(** What [voice_check] answers and calls, by the state of the libraries. *)
Definition check_outcome (lib : Libraries)
  : option Message * list VoiceConnection.Call :=
  if negb (has_nacl lib) then
    (Some no_nacl_message, [guild_call (send no_nacl_message)])
  else if opus_is_loaded lib then (None, [])
  else
    match opus_load_default lib with
    | Some true => (None, [load_default])
    | Some false =>
        (Some opus_default_failed_message,
         [load_default; guild_call (send opus_default_failed_message)])
    | None => (Some no_opus_message, [guild_call (send no_opus_message)])
    end.

Lemma voice_check_run (s : Session) :
  voice_check s
  = (Return (fst (check_outcome (libraries s))),
     session_with s (snd (check_outcome (libraries s)))).
Proof.
  destruct s as [[nacl loaded [[|]|]] vc cs]; destruct nacl, loaded;
    cbv -[app]; rewrite <- ?app_assoc, ?app_nil_r; reflexivity.
Qed.

(** X14: [voice_check] lets the handler go on exactly when PyNaCl is
    there and libopus is loaded or its default loads; otherwise it sends
    one message, which names the missing piece, as its last call.
    [_load_default()] is called only when PyNaCl is there and libopus is
    not loaded, and not at all when PyNaCl is missing. *)
Theorem voice_check_gate (s : Session) :
  exists answer new,
    voice_check s = (Return answer, session_with s new)
    /\ (answer = None <-> usable (libraries s) = true)
    /\ (In load_default new
        <-> has_nacl (libraries s) = true
            /\ opus_is_loaded (libraries s) = false
            /\ opus_load_default (libraries s) <> None)
    /\ (forall m, answer = Some m ->
        (new = [guild_call (send m)]
         \/ new = [load_default; guild_call (send m)])
        /\ m = if negb (has_nacl (libraries s)) then no_nacl_message
               else match opus_load_default (libraries s) with
                    | Some _ => opus_default_failed_message
                    | None => no_opus_message
                    end).
Proof.
  exists (fst (check_outcome (libraries s))),
    (snd (check_outcome (libraries s))).
  split; [apply voice_check_run|].
  destruct (libraries s) as [nacl loaded [[|]|]]; destruct nacl, loaded;
    cbv [check_outcome usable has_nacl opus_is_loaded opus_load_default
           negb andb orb fst snd In];
    (split; [split; intros H; first [reflexivity | discriminate H]|]);
    (split;
     [split;
      [intros H; intuition (try discriminate; try congruence)
      |intros (H1 & H2 & H3);
       intuition (try discriminate; try congruence)]
     |intros m H; first [discriminate H | injection H as <-; auto]]).
Qed.

(** X15: when [voice_check] has answered with a message, [jsk voice] and
    [jsk voice join] end there: they return nothing and place no call
    after those of the check, so the voice client is neither looked at nor
    moved and no connection is opened. *)
Theorem capability_gate_blocks (s s' : Session) (m : Message)
    (author_channel : option string) (destination : option Destination) :
  voice_check s = (Return (Some m), s') ->
  jsk_voice s = (Return None, s')
  /\ jsk_vc_join author_channel destination s = (Return None, s').
Proof.
  intros H. unfold jsk_voice, jsk_vc_join, bind. rewrite H. auto.
Qed.

(** The word [jsk voice] reports for a connected client. *)
Definition reported_word (v : VoiceClient) : string :=
  if paused v then "paused" else if playing v then "playing" else "idle".

(** X16: with usable libraries, [jsk voice] answers [Not connected.] when
    the guild has no voice client or the client is not connected;
    otherwise it reports the channel and one word, [paused] when the
    client says it is paused, else [playing] when it says it is playing,
    else [idle], and [is_playing()] is not asked of a paused client. *)
Theorem jsk_voice_reports_state (s : Session) :
  usable (libraries s) = true ->
  jsk_voice s
  = match VoiceConnection.voice_client s with
    | None =>
        (Return (Some "Not connected."%string),
         session_with s
           (load_calls (libraries s) ++ [guild_call (send "Not connected.")]))
    | Some v =>
        if connected v then
          (Return None,
           session_with s
             (load_calls (libraries s)
                ++ map guild_call
                     ([is_connected; is_paused]
                        ++ (if paused v then [] else [is_playing])
                        ++ [send ("Connected to " ++ channel_name v ++ ", "
                                    ++ reported_word v ++ ".")%string])))
        else
          (Return (Some "Not connected."%string),
           session_with s
             (load_calls (libraries s)
                ++ [guild_call is_connected;
                    guild_call (send "Not connected.")]))
    end.
Proof.
  destruct s as [[nacl loaded [[|]|]] [[c p pa src nm]|] cs];
    destruct nacl, loaded; try discriminate; intros _;
    try destruct c; try destruct pa; try destruct p;
    cbv -[app String.append]; rewrite <- ?app_assoc, ?app_nil_r;
    reflexivity.
Qed.

(** X17: with usable libraries, [join] goes to the channel given, to the
    channel of the member given, or with no destination to the channel of
    the author; a member without a voice channel only gets a message.
    When the guild has a voice client, connected or not, the client is
    moved and no connection is opened; when it has none, one connection
    is opened and nothing is moved. *)
Theorem jsk_vc_join_moves_or_connects (s : Session)
    (author_channel : option string) (destination : option Destination) :
  usable (libraries s) = true ->
  let target :=
    match destination with
    | Some (VoiceChannel name) => Some name
    | Some (Member channel) => channel
    | None => author_channel
    end in
  jsk_vc_join author_channel destination s
  = match target with
    | None =>
        (Return (Some "Member has no voice channel."%string),
         session_with s
           (load_calls (libraries s)
              ++ [guild_call (send "Member has no voice channel.")]))
    | Some name =>
        (Return None,
         session_with s
           (load_calls (libraries s)
              ++ [match VoiceConnection.voice_client s with
                  | Some _ => move_to name
                  | None => connect name
                  end;
                  guild_call (send ("Connected to " ++ name ++ ".")%string)]))
    end.
Proof.
  destruct s as [[nacl loaded [[|]|]] [v|] cs];
    destruct nacl, loaded; try discriminate; intros _;
    destruct destination as [[name|[name|]]|];
    try destruct author_channel as [name|];
    cbv -[app String.append]; rewrite <- ?app_assoc, ?app_nil_r;
    reflexivity.
Qed.

(** X18: [disconnect] asks for no library check; it places the
    [disconnect] call exactly when the guild has a voice client that says
    it is connected, and then names the channel it left; otherwise it
    only sends the not-connected message. *)
Theorem jsk_vc_disconnect_guarded (s : Session) :
  jsk_vc_disconnect s
  = match VoiceConnection.voice_client s with
    | None =>
        (Return None,
         session_with s [guild_call (send not_connected_message)])
    | Some v =>
        if connected v then
          (Return None,
           session_with s
             [guild_call is_connected; disconnect;
              guild_call
                (send ("Disconnected from " ++ channel_name v ++ ".")%string)])
        else
          (Return None,
           session_with s
             [guild_call is_connected;
              guild_call (send not_connected_message)])
    end.
Proof.
  destruct s as [lib [[c p pa src nm]|] cs]; try destruct c;
    cbv -[app String.append]; rewrite <- ?app_assoc, ?app_nil_r;
    reflexivity.
Qed.

End Connection.

Lemma capability_gate_blocks_sample :
  VoiceConnection.jsk_voice (Samples.session_of Samples.no_opus None)
  = (Return None,
     {| VoiceConnection.libraries := Samples.no_opus;
        VoiceConnection.voice_client := None;
        VoiceConnection.calls :=
          [VoiceConnection.guild_call
             (VoiceFeature.send VoiceConnection.no_opus_message)] |})
  /\ VoiceConnection.jsk_vc_join (Some "Lobby"%string) None
       (Samples.session_of Samples.no_opus None)
     = (Return None,
        {| VoiceConnection.libraries := Samples.no_opus;
           VoiceConnection.voice_client := None;
           VoiceConnection.calls :=
             [VoiceConnection.guild_call
                (VoiceFeature.send VoiceConnection.no_opus_message)] |}).
Proof.
  apply (capability_gate_blocks (Samples.session_of Samples.no_opus None)
           _ VoiceConnection.no_opus_message (Some "Lobby"%string) None).
  reflexivity.
Defined.

Lemma jsk_voice_reports_state_sample :
  VoiceConnection.jsk_voice
    (Samples.session_of Samples.opus_on_demand (Some Samples.playing_client))
  = (Return None,
     {| VoiceConnection.libraries := Samples.opus_on_demand;
        VoiceConnection.voice_client := Some Samples.playing_client;
        VoiceConnection.calls :=
          [VoiceConnection.load_default;
           VoiceConnection.guild_call VoiceFeature.is_connected;
           VoiceConnection.guild_call VoiceFeature.is_paused;
           VoiceConnection.guild_call VoiceFeature.is_playing;
           VoiceConnection.guild_call
             (VoiceFeature.send "Connected to General, playing.")] |}).
Proof.
  apply (jsk_voice_reports_state
           (Samples.session_of Samples.opus_on_demand
              (Some Samples.playing_client))).
  reflexivity.
Defined.

Lemma jsk_vc_join_moves_or_connects_samples :
  VoiceConnection.jsk_vc_join (Some "Lobby"%string) None
    (Samples.session_of Samples.opus_on_demand None)
  = (Return None,
     {| VoiceConnection.libraries := Samples.opus_on_demand;
        VoiceConnection.voice_client := None;
        VoiceConnection.calls :=
          [VoiceConnection.load_default; VoiceConnection.connect "Lobby";
           VoiceConnection.guild_call
             (VoiceFeature.send "Connected to Lobby.")] |})
  /\ VoiceConnection.jsk_vc_join (Some "Lobby"%string)
       (Some (VoiceConnection.VoiceChannel "Stage"))
       (Samples.session_of Samples.opus_on_demand
          (Some Samples.dropped_client))
     = (Return None,
        {| VoiceConnection.libraries := Samples.opus_on_demand;
           VoiceConnection.voice_client := Some Samples.dropped_client;
           VoiceConnection.calls :=
             [VoiceConnection.load_default; VoiceConnection.move_to "Stage";
              VoiceConnection.guild_call
                (VoiceFeature.send "Connected to Stage.")] |}).
Proof.
  split.
  - apply (jsk_vc_join_moves_or_connects
             (Samples.session_of Samples.opus_on_demand None)
             (Some "Lobby"%string) None).
    reflexivity.
  - apply (jsk_vc_join_moves_or_connects
             (Samples.session_of Samples.opus_on_demand
                (Some Samples.dropped_client))
             (Some "Lobby"%string)
             (Some (VoiceConnection.VoiceChannel "Stage"))).
    reflexivity.
Defined.
